(** * logdump: the tailing and buffering engine, its configuration and
      its query layer, embedded in Rocq.

    The development follows the Go packages of the repository:
    - [config]  : internal/config/config.go  (stream configuration, auto-discovery)
    - [logtail] : internal/logtail/logtail.go (followers, history buffer, read, search)
    - [mcp]     : internal/mcp/mcp.go         (tools, groups, resources)

    Go values are modelled as the code has them: strings are Go byte
    strings ([string], one [ascii] per byte), slices are lists, maps are
    [gmap]s, [int] counters that the program increments are [Z] with the
    64-bit wrap-around written out, slice lengths and file offsets are
    natural numbers (a slice or a file that long cannot exist).
    Library code the repository calls (regexp, bufio, os.File, path/filepath)
    is either modelled next to its use or taken as an interface. *)

From Stdlib Require Import ZArith List Ascii String DecimalString Lia.
From stdpp Require Import base option list gmap strings.

Local Open Scope string_scope.
Local Open Scope Z_scope.
Local Open Scope list_scope.

(** ** Go primitives *)

Module gostr.

(** Strings as byte lists and back. *)
Definition bytes (s : string) : list ascii := list_ascii_of_string s.
Definition str (l : list ascii) : string := string_of_list_ascii l.

Definition newline : ascii := "010"%char.

(** [len(s)] *)
Definition len (s : string) : nat := String.length s.

(** [strings.HasPrefix(s, prefix)] *)
Definition HasPrefix (s prefix : string) : bool := String.prefix prefix s.

(** [strings.TrimPrefix(s, prefix)] *)
Definition TrimPrefix (s prefix : string) : string :=
  if HasPrefix s prefix
  then String.substring (len prefix) (len s - len prefix) s
  else s.

(** [strings.HasSuffix(s, suffix)] *)
Definition HasSuffix (s suffix : string) : bool :=
  (len suffix <=? len s)%nat &&
  String.eqb (String.substring (len s - len suffix) (len suffix) s) suffix.

(** [strings.TrimSuffix(s, suffix)] *)
Definition TrimSuffix (s suffix : string) : string :=
  if HasSuffix s suffix
  then String.substring 0 (len s - len suffix) s
  else s.

(** [strings.Join(elems, sep)] *)
Fixpoint Join (elems : list string) (sep : string) : string :=
  match elems with
  | [] => ""
  | [e] => e
  | e :: rest => e +:+ sep +:+ Join rest sep
  end.

(** [strings.Split(s, sep)] for a one-byte separator: the pieces between
    the separators, an empty string giving one empty piece. *)
Fixpoint splitOn (sep : ascii) (cur : list ascii) (l : list ascii) : list string :=
  match l with
  | [] => [str cur]
  | c :: l' =>
      if Ascii.eqb c sep then str cur :: splitOn sep [] l'
      else splitOn sep (cur ++ [c]) l'
  end.

Definition Split (s : string) (sep : ascii) : list string :=
  splitOn sep [] (bytes s).

(** The white space [strings.TrimSpace] removes, among single bytes. *)
Definition isSpace (c : ascii) : bool :=
  let n := nat_of_ascii c in
  (Nat.eqb n 32 || ((9 <=? n)%nat && (n <=? 13)%nat))%bool.

Fixpoint trimLeft (l : list ascii) : list ascii :=
  match l with
  | c :: l' => if isSpace c then trimLeft l' else l
  | [] => []
  end.

(** [strings.TrimSpace(s)] *)
Definition TrimSpace (s : string) : string :=
  str (rev (trimLeft (rev (trimLeft (bytes s))))).

(** [fmt.Sprintf("%d", n)] *)
Definition itoa (n : Z) : string :=
  NilZero.string_of_int (Z.to_int n).

(** [strings.Contains(s, substr)] *)
Fixpoint Contains (s substr : string) : bool :=
  String.prefix substr s ||
  match s with
  | EmptyString => false
  | String _ s' => Contains s' substr
  end.

End gostr.

(** The machine integer [int] of the 64-bit targets the program is built for. *)
Module goint.

Definition wrap (z : Z) : Z := (z + 2 ^ 63) mod 2 ^ 64 - 2 ^ 63.

(** [n++] *)
Definition incr (n : Z) : Z := wrap (n + 1).

Definition maxInt : Z := 2 ^ 63 - 1.

End goint.

(** [path/filepath] on a system whose separator is the slash. *)
Module filepath.

Definition IsPathSeparator (c : ascii) : bool := Ascii.eqb c "/".

Fixpoint stripTrailingSlashes (r : list ascii) : list ascii :=
  match r with
  | c :: r' => if IsPathSeparator c then stripTrailingSlashes r' else r
  | [] => []
  end.

(** The part of a path after its last separator. *)
Definition lastElement (l : list ascii) : list ascii :=
  fold_left (fun acc c => if IsPathSeparator c then [] else acc ++ [c]) l [].

(** [filepath.Base(path)] *)
Definition Base (path : string) : string :=
  if String.eqb path "" then "."
  else
    let p := rev (stripTrailingSlashes (rev (gostr.bytes path))) in
    let p := lastElement p in
    match p with
    | [] => "/"
    | _ => gostr.str p
    end.

(** The scan of [filepath.Ext], read forwards: the suffix that starts at
    the last dot of the last element, if that element has a dot. *)
Definition extScan (l : list ascii) : option (list ascii) :=
  fold_left
    (fun acc c =>
       if IsPathSeparator c then None
       else if Ascii.eqb c "." then Some [c]
       else option_map (fun e => e ++ [c]) acc)
    l None.

(** [filepath.Ext(path)] *)
Definition Ext (path : string) : string :=
  match extScan (gostr.bytes path) with
  | Some e => gostr.str e
  | None => ""
  end.

End filepath.

(** What the program asks of the operating system and of [path/filepath]
    beyond the pure functions above. *)
Record OS := {
  (** [os.UserHomeDir()]; [None] when it returns an error *)
  UserHomeDir : option string;
  (** [os.Stat(p)] reports [os.IsNotExist] *)
  IsNotExist : string -> bool;
  (** [filepath.Glob(pattern)]; [None] when the pattern is malformed *)
  Glob : string -> option (list string);
  (** [filepath.Join(elem...)] *)
  Join : list string -> string;
  (** [filepath.Match(pattern, name)]; [None] when the pattern is malformed *)
  Match : string -> string -> option bool;
  (** [os.Open(path)]: the bytes of the file, or the error message *)
  Open : string -> list ascii + string
}.

(** ** internal/config/config.go *)

Module config.

Record GroupConfig := {
  Group_Name : string;
  Group_Pattern : string;
  Group_Color : string;
  Group_Streams : list string
}.

Record StreamConfig := {
  Name : string;
  Path : string;
  Patterns : list string;
  Tags : list string;
  Color : string
}.

Record ThemeConfig := {
  Background : string;
  Foreground : string;
  Accent : string
}.

Record FilterConfig := {
  Filter_Name : string;
  Filter_Pattern : string;
  Filter_Color : string;
  Actions : list string
}.

Record Config := {
  LogDir : string;
  Streams : list StreamConfig;
  Theme : ThemeConfig;
  Filters : list FilterConfig;
  Groups : list GroupConfig
}.

(** The error [filepath.Glob] can return. *)
Inductive error := ErrBadPattern.

(** Colors for auto-discovered streams. *)
Definition streamColors : list string :=
  ["cyan"; "green"; "yellow"; "magenta"; "blue"; "red"].

(** [m[k]] on a [map[string]bool]: false for a missing key. *)
Definition index (m : gmap string bool) (k : string) : bool :=
  default false (m !! k).

(** [base[:len(base)-len(filepath.Ext(base))]] *)
Definition removeExtension (base : string) : string :=
  String.substring 0 (gostr.len base - gostr.len (filepath.Ext base)) base.

Section WithOS.
Context (os : OS).

(** [expandPath] expands ~ to the user's home directory. *)
Definition expandPath (path : string) : string :=
  match gostr.bytes path with
  | [] => path
  | c :: rest =>
      if Ascii.eqb c "~" then
        match UserHomeDir os with
        | None => path
        | Some home => Join os [home; gostr.str rest]
        end
      else path
  end.

(** [StreamConfig.Matches] *)
Definition Matches (c : StreamConfig) (path : string) : bool :=
  existsb
    (fun pattern =>
       match Match os pattern (filepath.Base path) with
       | Some matched => matched
       | None => false
       end)
    (Patterns c).

(** The directory [AutoDiscover] scans. *)
Definition discoveryDir (cfg : Config) : string :=
  if String.eqb (LogDir cfg) "" then
    let home := default "" (UserHomeDir os) in
    Join os [home; ".local"; "share"; "logdump"; "logs"]
  else expandPath (LogDir cfg).

(** One turn of the loop over the discovered files; the state is
    [cfg.Streams] and [colorIdx]. *)
Definition discoverFile (exclude existingStreams : gmap string bool)
    (logDir : string) (st : list StreamConfig * nat) (file : string)
    : list StreamConfig * nat :=
  let '(streams, colorIdx) := st in
  let base := filepath.Base file in
  let name := removeExtension base in
  if index exclude name || index existingStreams name then st
  else
    (streams ++
       [{| Name := name;
           Path := logDir;
           Patterns := [base];
           Tags := [];
           Color := nth (colorIdx mod length streamColors) streamColors "" |}],
     S colorIdx).

(** [AutoDiscover] scans the log directory and creates a stream for each
    log file; stream names in [exclude] are skipped. The configuration is
    updated in place: the result is the configuration after the call and
    the error returned. *)
Definition AutoDiscover (cfg : Config) (exclude : gmap string bool)
    : Config * option error :=
  let logDir := discoveryDir cfg in
  if IsNotExist os logDir then (cfg, None)
  else
    match Glob os (Join os [logDir; "*.log"]) with
    | None => (cfg, Some ErrBadPattern)
    | Some files =>
        let txtFiles := default [] (Glob os (Join os [logDir; "*.txt"])) in
        let files := files ++ txtFiles in
        let existingStreams :=
          fold_left (fun m s => <[Name s := true]> m) (Streams cfg)
                    (∅ : gmap string bool) in
        let colorIdx := length (Streams cfg) in
        let '(streams, _) :=
          fold_left (discoverFile exclude existingStreams logDir) files
                    (Streams cfg, colorIdx) in
        ({| LogDir := LogDir cfg;
            Streams := streams;
            Theme := Theme cfg;
            Filters := Filters cfg;
            Groups := Groups cfg |}, None)
    end.

(** The files [AutoDiscover] iterates over: the matches of [*.log]
    followed by those of [*.txt], none when the directory is missing. *)
Definition discoveredFiles (cfg : Config) : list string :=
  let logDir := discoveryDir cfg in
  if IsNotExist os logDir then []
  else
    match Glob os (Join os [logDir; "*.log"]) with
    | None => []
    | Some files => files ++ default [] (Glob os (Join os [logDir; "*.txt"]))
    end.

End WithOS.

(** The statement of auto-discovery in the words of the specification. *)

(** A file is skipped when its derived name is excluded or already
    names a configured stream. *)
Definition skipped (cfg : Config) (exclude : gmap string bool) (file : string) : bool :=
  let name := removeExtension (filepath.Base file) in
  index exclude name ||
  existsb (fun s => String.eqb (Name s) name) (Streams cfg).

(** One stream per kept file, colored round-robin from the palette,
    counting on from the number of streams already present. *)
Fixpoint synthesize (logDir : string) (colorIdx : nat) (kept : list string)
    : list StreamConfig :=
  match kept with
  | [] => []
  | file :: rest =>
      {| Name := removeExtension (filepath.Base file);
         Path := logDir;
         Patterns := [filepath.Base file];
         Tags := [];
         Color := nth (colorIdx mod 6) streamColors "" |}
      :: synthesize logDir (S colorIdx) rest
  end.

Definition discoverNew_spec (logDir : string) (cfg : Config)
    (exclude : gmap string bool) (files : list string) : list StreamConfig :=
  Streams cfg ++
  synthesize logDir (length (Streams cfg))
    (List.filter (fun file => negb (skipped cfg exclude file)) files).

End config.

(** ** The interface to Go's [regexp] package

    The program only compiles patterns and asks whether a compiled pattern
    matches somewhere in a string; which patterns compile is the library's
    business. *)

Module regexp.

Record Engine := {
  Regexp : Type;
  (** [regexp.Compile(expr)]: the compiled pattern or the error message *)
  Compile : string -> Regexp + string;
  (** [re.MatchString(s)] *)
  MatchString : Regexp -> string -> bool
}.

(** [regexp.MustCompile(expr)] panics when [expr] does not compile:
    [None] stands for the panic. *)
Definition MustCompile (E : Engine) (expr : string) : option (Regexp E) :=
  match Compile E expr with
  | inl re => Some re
  | inr _ => None
  end.

End regexp.

(** [time.Time] as an instant on the wall clock. *)
Definition Time := Z.

(** ** internal/logtail/logtail.go *)

Module logtail.

Record LogEntry := {
  Timestamp : Time;
  Source : string;
  Content : string;
  Tags : list string;
  Filtered : bool;
  LineNumber : Z
}.

(** *** Files and buffered readers

    An open [*os.File] is its position; the bytes of the file belong to
    the file system and are passed to each operation ([data]), since
    other programs append to the file while it is followed. *)
Record File := {
  File_Name : string;
  File_Pos : nat
}.

Definition withPos (f : File) (p : nat) : File :=
  {| File_Name := File_Name f; File_Pos := p |}.

(** [f.Seek(0, io.SeekEnd)] *)
Definition SeekEnd (data : list ascii) (f : File) : File * nat :=
  (withPos f (length data), length data).

(** [f.Seek(offset, io.SeekStart)] *)
Definition SeekStart (f : File) (offset : nat) : File * nat :=
  (withPos f offset, offset).

(** [f.Seek(0, io.SeekCurrent)] *)
Definition SeekCurrent (f : File) : File * nat := (f, File_Pos f).

(** [f.Read(p)] with [len(p) = n]: the bytes read, none at end of file
    (where Go returns [0, io.EOF]). *)
Definition Read (data : list ascii) (f : File) (n : nat) : list ascii * File :=
  let chunk := take n (drop (File_Pos f) data) in
  (chunk, withPos f (File_Pos f + length chunk)).

(** The size of the buffer of [bufio.NewReader]. *)
Definition defaultBufSize : nat := 4096.

(** The position of the first newline of [buf], if any. *)
Fixpoint IndexNewline (buf : list ascii) : option nat :=
  match buf with
  | [] => None
  | c :: rest =>
      if Ascii.eqb c gostr.newline then Some 0%nat
      else option_map S (IndexNewline rest)
  end.

(** [reader.ReadString('\n')] on a [bufio.Reader] over [f] whose unread
    buffered bytes are [buf]. When the buffered bytes hold no newline the
    reader fills its buffer from the file and looks again; at end of file
    it returns what it has together with [io.EOF]. The result is the
    string read, whether the error is [io.EOF], the file and the bytes
    still buffered; [None] only when [fuel] runs out. *)
Fixpoint ReadString (fuel : nat) (data : list ascii) (f : File) (buf : list ascii)
    : option (list ascii * bool * File * list ascii) :=
  match IndexNewline buf with
  | Some i => Some (take (S i) buf, false, f, drop (S i) buf)
  | None =>
      let '(chunk, f') := Read data f defaultBufSize in
      match chunk with
      | [] => Some (buf, true, f', [])
      | _ =>
          match fuel with
          | O => None
          | S fuel' => ReadString fuel' data f' (buf ++ chunk)
          end
      end
  end.

(** *** Followers

    Of the fields of [Stream], [Reader] is never read from ([read] makes
    a reader of its own at each iteration) and [Done] is only closed
    when the goroutine ends; both are left out. *)

Record Stream := {
  Stream_Config : config.StreamConfig;
  Stream_File : File;
  Stream_LineNumber : Z
}.

Section Follower.
(** [now n]: what [time.Now()] returns when the stream builds the entry
    it numbers [n]. *)
Context (now : Z -> Time).

(** The body of the inner loop of [Stream.read] for one line read
    without error: count the line and build its entry. *)
Definition emit (s : Stream) (f : File) (line : list ascii) : Stream * LogEntry :=
  let n := goint.incr (Stream_LineNumber s) in
  let s' := {| Stream_Config := Stream_Config s;
               Stream_File := f;
               Stream_LineNumber := n |} in
  (s', {| Timestamp := now n;
          Source := config.Name (Stream_Config s);
          Content := gostr.TrimSuffix (gostr.str line) (String gostr.newline "");
          Tags := config.Tags (Stream_Config s);
          Filtered := false;
          LineNumber := n |}).

(** The inner loop of [Stream.read]: read strings up to a newline until
    the reader reports [io.EOF], sending one entry for each. An entry the
    channel has no room for is handed to a goroutine that sends it later;
    [sent] lists the entries in the order the follower hands them over.
    Errors of the file other than [io.EOF] and cancellation end the
    goroutine; a run of the model is a run without them. *)
Fixpoint readLines (fuel : nat) (data : list ascii) (s : Stream)
    (buf : list ascii) (sent : list LogEntry) : option (Stream * list LogEntry) :=
  match ReadString (S (length data)) data (Stream_File s) buf with
  | None => None
  | Some (line, true, f, _) =>
      Some ({| Stream_Config := Stream_Config s;
               Stream_File := f;
               Stream_LineNumber := Stream_LineNumber s |}, sent)
  | Some (line, false, f, buf') =>
      match fuel with
      | O => None
      | S fuel' =>
          let '(s', entry) := emit s f line in
          readLines fuel' data s' buf' (sent ++ [entry])
      end
  end.

(** The state of the goroutine [Stream.read]: the stream and the local
    variable [offset]. *)
Record Follower := {
  stream : Stream;
  offset : nat
}.

(** [Stream.read] up to its loop: in tail-only mode the follower starts
    at the end of the file (skip history). *)
Definition start (s : Stream) (tailOnly : bool) (data : list ascii) : Follower :=
  if tailOnly then
    let '(f, end_) := SeekEnd data (Stream_File s) in
    {| stream := {| Stream_Config := Stream_Config s;
                    Stream_File := f;
                    Stream_LineNumber := Stream_LineNumber s |};
       offset := end_ |}
  else {| stream := s; offset := 0 |}.

(** One iteration of the loop of [Stream.read] on a file whose bytes
    are [data] during the iteration: the follower afterwards and the
    entries sent to the channel, in order. *)
Definition poll (fl : Follower) (data : list ascii) : option (Follower * list LogEntry) :=
  let s := stream fl in
  let '(f, fileSize) := SeekEnd data (Stream_File s) in
  if (offset fl <? fileSize)%nat then
    let '(f, _) := SeekStart f (offset fl) in
    let s := {| Stream_Config := Stream_Config s;
                Stream_File := f;
                Stream_LineNumber := Stream_LineNumber s |} in
    match readLines (S (length data)) data s [] [] with
    | None => None
    | Some (s', sent) =>
        let '(f', newOffset) := SeekCurrent (Stream_File s') in
        Some ({| stream := {| Stream_Config := Stream_Config s';
                              Stream_File := f';
                              Stream_LineNumber := Stream_LineNumber s' |};
                 offset := newOffset |}, sent)
    end
  else
    Some ({| stream := {| Stream_Config := Stream_Config s;
                          Stream_File := f;
                          Stream_LineNumber := Stream_LineNumber s |};
             offset := offset fl |}, []).

(** The loop of [Stream.read] until it is cancelled: one iteration per
    element of [snapshots], the bytes of the file at that iteration. *)
Fixpoint run (fl : Follower) (snapshots : list (list ascii))
    : option (Follower * list LogEntry) :=
  match snapshots with
  | [] => Some (fl, [])
  | data :: rest =>
      match poll fl data with
      | None => None
      | Some (fl', sent) =>
          match run fl' rest with
          | None => None
          | Some (fl'', sent') => Some (fl'', sent ++ sent')
          end
      end
  end.

End Follower.

(** *** The manager

    The two mutexes of the manager are modelled by the events an
    operation performs on them, in order; its context and cancel
    function are left out: an operation of the model is one that runs
    before the manager is closed. *)
Inductive Mutex := bufferMu | mu.

Inductive Event :=
| Lock (m : Mutex)
| Unlock (m : Mutex)
| RLock (m : Mutex)
| RUnlock (m : Mutex).

Record Manager := {
  streams : gmap string Stream;
  (** the channel [entries], oldest first *)
  entries : list LogEntry;
  buffer : list LogEntry;
  (** skip history, only show new logs *)
  tailOnly : bool
}.

(** An operation on the manager: its result, the manager afterwards and
    the lock events it performed. *)
Definition Op (A : Type) : Type := Manager -> A * Manager * list Event.

Definition ret {A} (a : A) : Op A := fun m => (a, m, []).

Definition bind {A B} (op : Op A) (k : A -> Op B) : Op B :=
  fun m =>
    let '(a, m1, t1) := op m in
    let '(b, m2, t2) := k a m1 in
    (b, m2, t1 ++ t2).

Definition event (e : Event) : Op unit := fun m => (tt, m, [e]).

Definition get {A} (proj : Manager -> A) : Op A := fun m => (proj m, m, []).

Definition setBuffer (b : list LogEntry) : Op unit :=
  fun m => (tt, {| streams := streams m; entries := entries m;
                   buffer := b; tailOnly := tailOnly m |}, []).

Definition setStreams (ss : gmap string Stream) : Op unit :=
  fun m => (tt, {| streams := ss; entries := entries m;
                   buffer := buffer m; tailOnly := tailOnly m |}, []).

Notation "'let*' x := c1 'in' c2" := (bind c1 (fun x => c2))
  (at level 10, x name, c1 at level 100, c2 at level 200).
Notation "c1 >> c2" := (bind c1 (fun _ => c2))
  (at level 100, c2 at level 200, right associativity).

Definition result {A} (r : A * Manager * list Event) : A := fst (fst r).
Definition after {A} (r : A * Manager * list Event) : Manager := snd (fst r).
Definition events {A} (r : A * Manager * list Event) : list Event := snd r.

Definition NewManagerWithOptions (tailOnly : bool) : Manager :=
  {| streams := ∅; entries := []; buffer := []; tailOnly := tailOnly |}.

Definition NewManager : Manager := NewManagerWithOptions false.

(** The errors the manager returns: those it builds with [fmt.Errorf],
    ["failed to open %s: %w"] and ["invalid pattern: %w"], and
    [filepath.ErrBadPattern] of [filepath.Glob]. *)
Inductive error :=
| FailedToOpen (path : string) (cause : string)
| InvalidPattern (cause : string)
| ErrBadPattern.

(** [err.Error()] *)
Definition Error (err : error) : string :=
  match err with
  | FailedToOpen path cause => "failed to open " +:+ path +:+ ": " +:+ cause
  | InvalidPattern cause => "invalid pattern: " +:+ cause
  | ErrBadPattern => "syntax error in pattern"
  end.

Section WithOS.
Context (os : OS).

(** [Manager.addFile]: a path that is not followed yet is opened and
    gets a stream of its own, counting lines from zero; the goroutine
    it starts is [run] above. *)
Definition addFile (cfg : config.StreamConfig) (path : string) : Op (option error) :=
  event (Lock mu) >>
  let* ss := get streams in
  match ss !! path with
  | Some _ => event (Unlock mu) >> ret None
  | None =>
      match Open os path with
      | inr cause => event (Unlock mu) >> ret (Some (FailedToOpen path cause))
      | inl _ =>
          let stream := {| Stream_Config := cfg;
                           Stream_File := {| File_Name := path; File_Pos := 0 |};
                           Stream_LineNumber := 0 |} in
          setStreams (<[path := stream]> ss) >>
          event (Unlock mu) >>
          ret None
      end
  end.

(** The loop of [Tail] over the paths [filepath.Glob] found: the paths
    the patterns of the source match are added, up to the first error. *)
Fixpoint addMatches (cfg : config.StreamConfig) (matches : list string)
    : Op (option error) :=
  match matches with
  | [] => ret None
  | path :: rest =>
      if negb (config.Matches os cfg path) then addMatches cfg rest
      else
        let* err := addFile cfg path in
        match err with
        | Some e => ret (Some e)
        | None => addMatches cfg rest
        end
  end.

(** [Manager.Tail]. When the directory holds nothing yet, [Tail] starts
    the goroutine of [watchDirectory], which is not part of the result:
    [rescan] below is what that goroutine does at each tick. *)
Definition Tail (cfg : config.StreamConfig) : Op (option error) :=
  match Glob os (Join os [config.Path cfg; "*"]) with
  | None => ret (Some ErrBadPattern)
  | Some matches => addMatches cfg matches
  end.

(** One tick of the goroutine of [watchDirectory]: the errors of
    [filepath.Glob] and of [addFile] are dropped. *)
Definition rescan (cfg : config.StreamConfig) : Op unit :=
  let matches := default [] (Glob os (Join os [config.Path cfg; "*"])) in
  fold_right
    (fun path rest =>
       if config.Matches os cfg path
       then addFile cfg path >> rest
       else rest)
    (ret tt) matches.

End WithOS.

(** [Manager.AddEntry] *)
Definition AddEntry (entry : LogEntry) : Op unit :=
  event (Lock bufferMu) >>
  let* b := get buffer in
  let b := b ++ [entry] in
  let b := if (1000 <? length b)%nat then drop (length b - 1000) b else b in
  setBuffer b >>
  event (Unlock bufferMu).

(** The loop of [Manager.GetEntries] and of [Manager.Search] over the
    buffer: keep the entries that pass [keep], in order. *)
Definition collect (keep : LogEntry -> bool) (b : list LogEntry) : list LogEntry :=
  fold_left (fun acc entry => if keep entry then acc ++ [entry] else acc) b [].

(** [source == "" || entry.Source == source] *)
Definition fromSource (source : string) (entry : LogEntry) : bool :=
  String.eqb source "" || String.eqb (Source entry) source.

(** [Manager.GetEntries] *)
Definition GetEntries (source : string) (limit : Z) : Op (list LogEntry) :=
  event (RLock bufferMu) >>
  let* b := get buffer in
  let entries := collect (fromSource source) b in
  let entries :=
    if (0 <? limit) && (limit <? Z.of_nat (length entries))
    then drop (Z.to_nat (Z.of_nat (length entries) - limit)) entries
    else entries in
  event (RUnlock bufferMu) >>
  ret entries.

(** [Manager.GetBuffer] *)
Definition GetBuffer : Op (list LogEntry) :=
  event (RLock bufferMu) >>
  let* b := get buffer in
  event (RUnlock bufferMu) >>
  ret b.

Section WithRegexp.
Context (E : regexp.Engine).

(** [Manager.Search]: the pattern is compiled first; the goroutine that
    scans the buffer is run to its end, and the result is what the
    channel it fills delivers (the context is not cancelled). *)
Definition Search (pattern : string) (source : string)
    : Op (list LogEntry + error) :=
  match regexp.Compile E pattern with
  | inr err => ret (inr (InvalidPattern err))
  | inl re =>
      event (RLock bufferMu) >>
      let* b := get buffer in
      let results :=
        collect (fun entry =>
                   fromSource source entry &&
                   regexp.MatchString E re (Content entry)) b in
      event (RUnlock bufferMu) >>
      ret (inl results)
  end.

End WithRegexp.

(** [Manager.GetStreams] *)
Definition GetStreams : Op (gmap string Stream) :=
  event (RLock mu) >>
  let* ss := get streams in
  event (RUnlock mu) >>
  ret ss.

(** [Manager.StartBuffering], for the entries in the channel: each one
    is taken from the channel and added to the buffer. *)
Fixpoint drain (pending : list LogEntry) : Op unit :=
  match pending with
  | [] => ret tt
  | entry :: rest => AddEntry entry >> drain rest
  end.

End logtail.

(** ** internal/mcp/mcp.go *)

Module mcp.

Record AgentAccess := {
  AgentID : string;
  AgentName : string;
  Action : string;
  Access_Source : string;
  Access_Pattern : string;
  Access_Timestamp : Time;
  ResultCount : Z
}.

Record LogGroup := {
  Name : string;
  Pattern : string;
  Color : string;
  Streams : list string;
  CreatedAt : Time
}.

(** The zero value a Go map returns for a missing group. *)
Definition zeroLogGroup : LogGroup :=
  {| Name := ""; Pattern := ""; Color := ""; Streams := []; CreatedAt := 0 |}.

Record Server := {
  manager : logtail.Manager;
  config : config.Config;
  accessLog : list AgentAccess;
  logGroups : gmap string LogGroup;
  currentAgent : string
}.

(** A decoded JSON value ([interface{}]); a number is a [float64], here
    with the value its conversion [int(l)] gives. *)
Inductive Value :=
| VNull
| VString (s : string)
| VNumber (n : Z)
| VBool (b : bool).

Record MCPError := {
  Code : Z;
  Message : string
}.

(** The two shapes of [Result] the handlers below build:
    [{"content": [{"type": "text", "text": text}]}] and
    [{"contents": [{"uri": uri, "mimeType": "text/plain", "text": text}]}]. *)
Inductive Payload :=
| ContentText (text : string)
| ResourceContents (uri mimeType text : string).

Record MCPResponse := {
  Result : option Payload;
  Error : option MCPError;
  ID : Value
}.

(** What a handler does: it returns, or the goroutine panics. *)
Inductive outcome (A : Type) :=
| Returned (a : A)
| Panicked.
Arguments Returned {A} a.
Arguments Panicked {A}.

(** [v, _ := params[key].(string)] *)
Definition stringArg (params : gmap string Value) (key : string) : string :=
  match params !! key with
  | Some (VString v) => v
  | _ => ""
  end.

(** [limit := d; if l, ok := params["limit"].(float64); ok { limit = int(l) }] *)
Definition limitArg (params : gmap string Value) (d : Z) : Z :=
  match params !! "limit" with
  | Some (VNumber l) => l
  | _ => d
  end.

(** A call of a method of [s.manager]; the manager is shared, so the
    server sees it as the call leaves it. *)
Definition callManager {A} (op : logtail.Op A) (s : Server) : A * Server :=
  let r := op (manager s) in
  (logtail.result r,
   {| manager := logtail.after r;
      config := config s;
      accessLog := accessLog s;
      logGroups := logGroups s;
      currentAgent := currentAgent s |}).

Definition textResponse (text : string) (id : Value) : MCPResponse :=
  {| Result := Some (ContentText text); Error := None; ID := id |}.

Definition errorResponse (code : Z) (message : string) (id : Value) : MCPResponse :=
  {| Result := None; Error := Some {| Code := code; Message := message |}; ID := id |}.

Section Handlers.
Context (E : regexp.Engine).
(** [t.Format(layout)] *)
Context (Format : string -> Time -> string).
(** [Now n]: the [n]-th reading of [time.Now()] during a handler. *)
Context (Now : nat -> Time).

(** [Server.logAccess] *)
Definition logAccess (agentID action source pattern : string)
    (resultCount : Z) (now : Time) (s : Server) : Server :=
  let access := {| AgentID := agentID;
                   AgentName := "";
                   Action := action;
                   Access_Source := source;
                   Access_Pattern := pattern;
                   Access_Timestamp := now;
                   ResultCount := resultCount |} in
  let log := accessLog s ++ [access] in
  let log := if (1000 <? length log)%nat then drop (length log - 1000) log else log in
  {| manager := manager s;
     config := config s;
     accessLog := log;
     logGroups := logGroups s;
     currentAgent := currentAgent s |}.

(** The first half of [toolRead]: the entries it is going to print,
    read from the manager and then filtered by the group. *)
Definition toolRead_entries (params : gmap string Value) (s : Server)
    : outcome (list logtail.LogEntry * Server) :=
  let source := stringArg params "source" in
  let group := stringArg params "group" in
  let limit := limitArg params 100 in
  let '(entries, s) := callManager (logtail.GetEntries source limit) s in
  if negb (String.eqb group "") then
    match logGroups s !! group with
    | Some g =>
        if negb (String.eqb (Pattern g) "") then
          match regexp.MustCompile E ("(?i)" +:+ Pattern g) with
          | None => Panicked
          | Some re =>
              let filtered :=
                logtail.collect
                  (fun e => regexp.MatchString E re (logtail.Content e)) entries in
              Returned (filtered, s)
          end
        else Returned (entries, s)
    | None => Returned (entries, s)
    end
  else Returned (entries, s).

(** [fmt.Sprintf("[%s] [%s] %s", ...)] of [toolRead] and [toolGrep] *)
Definition toolLine (entry : logtail.LogEntry) : string :=
  "[" +:+ Format "15:04:05" (logtail.Timestamp entry) +:+ "] [" +:+
  logtail.Source entry +:+ "] " +:+ logtail.Content entry.

(** [Server.toolRead] *)
Definition toolRead (params : gmap string Value) (id : Value) (agentID : string)
    (s : Server) : outcome (MCPResponse * Server) :=
  match toolRead_entries params s with
  | Panicked => Panicked
  | Returned (entries, s) =>
      let lines := map toolLine entries in
      let text := gostr.Join lines (String gostr.newline "") in
      let text := if (length entries =? 0)%nat then "No log entries found" else text in
      let s := logAccess agentID "read" (stringArg params "source") ""
                         (Z.of_nat (length entries)) (Now 0) s in
      Returned (textResponse text id, s)
  end.

(** The loop of [toolGrep] over the results of the search: it stops at
    [limit] matches and compiles the pattern again for each result. *)
Fixpoint grepLoop (fullPattern : string) (limit : Z)
    (results : list logtail.LogEntry) (matched : list logtail.LogEntry) (count : Z)
    : list logtail.LogEntry * Z :=
  match results with
  | [] => (matched, count)
  | entry :: rest =>
      if limit <=? count then (matched, count)
      else
        match regexp.Compile E fullPattern with
        | inr _ => grepLoop fullPattern limit rest matched count
        | inl re =>
            if regexp.MatchString E re (logtail.Content entry)
            then grepLoop fullPattern limit rest (matched ++ [entry]) (goint.incr count)
            else grepLoop fullPattern limit rest matched count
        end
  end.

(** The source [toolGrep] searches in. *)
Definition searchSource (params : gmap string Value) (s : Server) : string :=
  let group := stringArg params "group" in
  if negb (String.eqb group "") then
    let g := default zeroLogGroup (logGroups s !! group) in
    gostr.Join (Streams g) ","
  else stringArg params "source".

(** The first half of [toolGrep]: the entries it is going to print and
    their number, or the error of the search. *)
Definition toolGrep_entries (params : gmap string Value) (s : Server)
    : (list logtail.LogEntry * Z + logtail.error) * Server :=
  let pattern := stringArg params "pattern" in
  let limit := limitArg params 100 in
  let caseInsensitive :=
    match params !! "case_insensitive" with
    | Some (VBool ci) => ci
    | _ => false
    end in
  let flags := if caseInsensitive then "(?i)" else "" in
  let fullPattern := flags +:+ pattern in
  let '(found, s') :=
    callManager (logtail.Search E fullPattern (searchSource params s)) s in
  match found with
  | inr err => (inr err, s')
  | inl results => (inl (grepLoop fullPattern limit results [] 0), s')
  end.

(** [Server.toolGrep] *)
Definition toolGrep (params : gmap string Value) (id : Value) (agentID : string)
    (s : Server) : MCPResponse * Server :=
  let pattern := stringArg params "pattern" in
  match toolGrep_entries params s with
  | (inr err, s') => (errorResponse (-32603) (logtail.Error err) id, s')
  | (inl (matched, count), s') =>
      let lines := map toolLine matched in
      let text :=
        if count =? 0 then "Pattern: " +:+ pattern +:+ String gostr.newline "No matches found"
        else "Pattern: " +:+ pattern +:+ String gostr.newline "Matches: " +:+
             gostr.itoa count +:+ String gostr.newline (String gostr.newline "") +:+
             gostr.Join lines (String gostr.newline "") in
      let s' := logAccess agentID "grep" (searchSource params s) pattern count (Now 0) s' in
      (textResponse text id, s')
  end.

(** The loop of [toolCreateGroup] over the comma-separated names. *)
Definition splitStreams (streamsStr : string) : list string :=
  if negb (String.eqb streamsStr "") then
    map gostr.TrimSpace (gostr.Split streamsStr ",")
  else [].

(** [Server.toolCreateGroup]: the group is stored under its name as it
    is given; the pattern is not looked at. *)
Definition toolCreateGroup (params : gmap string Value) (id : Value) (agentID : string)
    (s : Server) : MCPResponse * Server :=
  let name := stringArg params "name" in
  let pattern := stringArg params "pattern" in
  let color := stringArg params "color" in
  let streams := splitStreams (stringArg params "streams") in
  let color := if String.eqb color "" then "cyan" else color in
  let g := {| Name := name;
              Pattern := pattern;
              Color := color;
              Streams := streams;
              CreatedAt := Now 0 |} in
  let s := {| manager := manager s;
              config := config s;
              accessLog := accessLog s;
              logGroups := <[name := g]> (logGroups s);
              currentAgent := currentAgent s |} in
  let s := logAccess agentID "create_group" name pattern 1 (Now 1) s in
  let text := "Created group '" +:+ name +:+ "' with pattern '" +:+ pattern +:+ "'" in
  (textResponse text id, s).

(** [fmt.Sprintf("[%s] %s | %s", ...)] of [handleResourcesRead] *)
Definition resourceLine (e : logtail.LogEntry) : string :=
  "[" +:+ Format "15:04:05.000" (logtail.Timestamp e) +:+ "] " +:+
  logtail.Source e +:+ " | " +:+ logtail.Content e.

(** The inner loop of the group branch of [handleResourcesRead]:
    whether some stream of the group is the source of [e] and the
    pattern matches. *)
Definition inGroup (re : regexp.Regexp E) (streams : list string)
    (e : logtail.LogEntry) : bool :=
  existsb (fun stream =>
             String.eqb (logtail.Source e) stream &&
             regexp.MatchString E re (logtail.Content e)) streams.

(** The entries the group branch of [handleResourcesRead] prints. *)
Definition groupResource_entries (groupName : string) (s : Server)
    : outcome (option (list logtail.LogEntry) * Server) :=
  match logGroups s !! groupName with
  | Some group =>
      match regexp.MustCompile E ("(?i)" +:+ Pattern group) with
      | None => Panicked
      | Some re =>
          let '(entries, s) := callManager (logtail.GetEntries "" 100) s in
          Returned (Some (logtail.collect (inGroup re (Streams group)) entries), s)
      end
  | None => Returned (None, s)
  end.

(** The request parameters of [resources/read] as [json.Unmarshal]
    leaves them in [struct { URI string }]: [None] when the parameters
    are not an object or ["uri"] is not a string. *)
Definition decodeURI (params : option (gmap string Value)) : option string :=
  match params with
  | None => None
  | Some m =>
      match m !! "uri" with
      | None | Some VNull => Some ""
      | Some (VString u) => Some u
      | Some _ => None
      end
  end.

(** [Server.handleResourcesRead] *)
Definition handleResourcesRead (params : option (gmap string Value)) (id : Value)
    (s : Server) : outcome (MCPResponse * Server) :=
  match decodeURI params with
  | None => Returned (errorResponse (-32602) "Invalid params" id, s)
  | Some uri =>
      let respond text s :=
        Returned ({| Result := Some (ResourceContents uri "text/plain" text);
                     Error := None; ID := id |}, s) in
      if gostr.HasPrefix uri "logdump://stream/" then
        let streamName := gostr.TrimPrefix uri "logdump://stream/" in
        let '(entries, s) := callManager (logtail.GetEntries streamName 100) s in
        respond (gostr.Join (map resourceLine entries) (String gostr.newline "")) s
      else if gostr.HasPrefix uri "logdump://group/" then
        let groupName := gostr.TrimPrefix uri "logdump://group/" in
        match groupResource_entries groupName s with
        | Panicked => Panicked
        | Returned (Some entries, s) =>
            respond (gostr.Join (map resourceLine entries) (String gostr.newline "")) s
        | Returned (None, s) =>
            Returned (errorResponse (-32603) ("Group not found: " +:+ groupName) id, s)
        end
      else
        Returned (errorResponse (-32603) ("Unknown resource URI: " +:+ uri) id, s)
  end.

End Handlers.

(** *** The other tools and the dispatch of tool calls *)

(** One resource of [resources/list]. *)
Record Resource := {
  uri : string;
  name : string;
  mimeType : string;
  description : string
}.

(** [Server.handleSetAgent] for a request whose parameters
    [json.Unmarshal] left as [Some (AgentID, AgentName)], or could not
    decode ([None]): the error of the response, if any, and the server; a
    response without error carries [{"success": true}]. *)
Definition handleSetAgent (decoded : option (string * string)) (s : Server)
    : option MCPError * Server :=
  match decoded with
  | None => (Some {| Code := -32602; Message := "Invalid params" |}, s)
  | Some (agentID, agentName) =>
      (None,
       {| manager := manager s;
          config := config s;
          accessLog := accessLog s;
          logGroups := logGroups s;
          currentAgent := agentName +:+ " (" +:+ agentID +:+ ")" |})
  end.

Section Tools.
Context (E : regexp.Engine).
Context (Format : string -> Time -> string).
Context (Now : nat -> Time).
(** [strings.ToLower] *)
Context (ToLower : string -> string).
(** The order in which a [range] over a map visits its entries. *)
Context (Range : forall A, gmap string A -> list (string * A)).
(** [json.Marshal] of the arguments of a tool call, and the [%q] verb. *)
Context (Marshal : gmap string Value -> string).
Context (Quote : string -> string).
(** Whether the server could open its activity log file. *)
Context (logOpen : bool).

(** The agent the log lines and the access records name. *)
Definition agentOf (s : Server) : string :=
  if String.eqb (currentAgent s) "" then "unknown" else currentAgent s.

(** [Server.logActivity]: the line written to the activity log, if the
    file is open. *)
Definition logActivity (message : string) (now : Time) (s : Server) : list string :=
  if logOpen then
    ["[" +:+ Format "2006-01-02 15:04:05.000" now +:+ "] [AGENT: " +:+ agentOf s +:+
     "] " +:+ message +:+ String gostr.newline ""]
  else [].

(** The loop of [NewServer] over the groups of the configuration; [i]
    counts the readings of the clock. *)
Fixpoint addGroups (i : nat) (gs : list config.GroupConfig)
    (groups : gmap string LogGroup) : gmap string LogGroup :=
  match gs with
  | [] => groups
  | g :: rest =>
      addGroups (S i) rest
        (<[config.Group_Name g :=
             {| Name := config.Group_Name g;
                Pattern := config.Group_Pattern g;
                Color := config.Group_Color g;
                Streams := config.Group_Streams g;
                CreatedAt := Now i |}]> groups)
  end.

(** [NewServer]: the server, with the groups of the configuration by
    name and an empty access log, and the line written to the activity
    log when the file could be opened. *)
Definition NewServer (manager : logtail.Manager) (cfg : config.Config)
    : Server * list string :=
  let server :=
    {| manager := manager;
       config := cfg;
       accessLog := [];
       logGroups := addGroups 0 (config.Groups cfg) ∅;
       currentAgent := "" |} in
  (server, logActivity "MCP server started" (Now (length (config.Groups cfg))) server).

(** [Server.logToolCall] *)
Definition logToolCall (toolName : string) (args : gmap string Value)
    (resultCount : Z) (now : Time) (s : Server) : list string :=
  if logOpen then
    let resultInfo :=
      if 0 <=? resultCount then " -> " +:+ gostr.itoa resultCount +:+ " results" else "" in
    ["[" +:+ Format "2006-01-02 15:04:05.000" now +:+ "] [AGENT: " +:+ agentOf s +:+
     "] TOOL: " +:+ toolName +:+ "(args: " +:+ Marshal args +:+ ")" +:+ resultInfo +:+
     String gostr.newline ""]
  else [].

(** [Server.toolStreams] *)
Definition toolStreams (id : Value) (agentID : string) (s : Server)
    : MCPResponse * Server :=
  let '(streams, s) := callManager logtail.GetStreams s in
  let lines :=
    map (fun '(path, stream) =>
           "- " +:+ config.Name (logtail.Stream_Config stream) +:+ ": " +:+ path +:+
           " (" +:+ gostr.itoa (logtail.Stream_LineNumber stream) +:+ " lines read)")
        (Range _ streams) in
  let text :=
    if (size streams =? 0)%nat then "No active streams"
    else "Active Streams: " +:+ gostr.itoa (Z.of_nat (size streams)) +:+
         String gostr.newline (String gostr.newline "") +:+
         gostr.Join lines (String gostr.newline "") in
  let s := logAccess agentID "list_streams" "" "" (Z.of_nat (size streams)) (Now 0) s in
  (textResponse text id, s).

(** [Server.toolGroups] *)
Definition toolGroups (id : Value) (agentID : string) (s : Server)
    : MCPResponse * Server :=
  let lines :=
    map (fun '(_, group) =>
           "- " +:+ Name group +:+ ": pattern=" +:+ Quote (Pattern group) +:+
           " streams=[" +:+ gostr.Join (Streams group) " " +:+ "]")
        (Range _ (logGroups s)) in
  let text :=
    if (size (logGroups s) =? 0)%nat then "No log groups defined"
    else "Log Groups: " +:+ gostr.itoa (Z.of_nat (size (logGroups s))) +:+
         String gostr.newline (String gostr.newline "") +:+
         gostr.Join lines (String gostr.newline "") in
  let s' := logAccess agentID "list_groups" "" "" (Z.of_nat (size (logGroups s))) (Now 0) s in
  (textResponse text id, s').

(** [Server.toolStats] *)
Definition toolStats (id : Value) (agentID : string) (s : Server)
    : MCPResponse * Server :=
  let '(streams, s) := callManager logtail.GetStreams s in
  let streamCount := Z.of_nat (size streams) in
  let groupCount := Z.of_nat (size (logGroups s)) in
  let '(buffer, s) := callManager logtail.GetBuffer s in
  let bufferSize := Z.of_nat (length buffer) in
  let s := logAccess agentID "stats" "" "" 0 (Now 0) s in
  let text :=
    "Logdump Statistics:" +:+ String gostr.newline "- Active streams: " +:+
    gostr.itoa streamCount +:+ String gostr.newline "- Log groups: " +:+
    gostr.itoa groupCount +:+ String gostr.newline "- Buffer size: " +:+
    gostr.itoa bufferSize +:+ " entries" +:+ String gostr.newline "- Access log: " +:+
    gostr.itoa (Z.of_nat (length (accessLog s))) +:+ " entries" in
  (textResponse text id, s).

(** Whether [toolAccessLog] shows a record to a request that names an
    agent. *)
Definition agentMatches (filterAgent : string) (a : AgentAccess) : bool :=
  String.eqb (AgentID a) filterAgent ||
  gostr.Contains (ToLower (AgentID a)) (ToLower filterAgent).

(** The first half of [toolAccessLog]: the records it is going to print. *)
Definition toolAccessLog_entries (params : gmap string Value) (s : Server)
    : list AgentAccess :=
  let filterAgent := stringArg params "agent" in
  let limit := limitArg params 50 in
  let filtered :=
    if negb (String.eqb filterAgent "") then
      fold_left (fun acc a => if agentMatches filterAgent a then acc ++ [a] else acc)
                (accessLog s) []
    else accessLog s in
  if (0 <? limit) && (limit <? Z.of_nat (length filtered))
  then drop (Z.to_nat (Z.of_nat (length filtered) - limit)) filtered
  else filtered.

(** [Server.toolAccessLog] *)
Definition toolAccessLog (params : gmap string Value) (id : Value) (agentID : string)
    (s : Server) : MCPResponse :=
  let filtered := toolAccessLog_entries params s in
  let lines :=
    map (fun a =>
           "[" +:+ Format "15:04:05" (Access_Timestamp a) +:+ "] " +:+ AgentID a +:+
           ": " +:+ Action a +:+ " (results: " +:+ gostr.itoa (ResultCount a) +:+ ")")
        filtered in
  let text :=
    if (length filtered =? 0)%nat then "No access log entries"
    else "Access Log: " +:+ gostr.itoa (Z.of_nat (length filtered)) +:+ " entries" +:+
         String gostr.newline (String gostr.newline "") +:+
         gostr.Join lines (String gostr.newline "") in
  textResponse text id.

(** [Server.handleAccessLog] *)
Definition handleAccessLog (id : Value) (s : Server) : MCPResponse :=
  toolAccessLog ∅ id "ui" s.

(** [Server.handleToolCall] for a request whose parameters
    [json.Unmarshal] left as the tool [toolName] and the arguments [args]
    (no name and no arguments when they cannot be decoded). No result of
    a tool has a ["count"] field, so the count written to the activity
    log is 0 where the handler looks for one. The result is the response,
    the server and the lines written to the activity log. *)
Definition handleToolCall (toolName : string) (args : gmap string Value) (id : Value)
    (s : Server) : outcome (MCPResponse * Server * list string) :=
  let agentID := agentOf s in
  if String.eqb toolName "logdump_read" then
    match toolRead E Format Now args id agentID s with
    | Panicked => Panicked
    | Returned (resp, s') => Returned (resp, s', logToolCall toolName args 0 (Now 1) s')
    end
  else if String.eqb toolName "logdump_grep" then
    let '(resp, s') := toolGrep E Format Now args id agentID s in
    let now := match Error resp with None => Now 1 | Some _ => Now 0 end in
    Returned (resp, s', logToolCall toolName args 0 now s')
  else if String.eqb toolName "logdump_streams" then
    let '(resp, s') := toolStreams id agentID s in
    Returned (resp, s', logToolCall toolName args 0 (Now 1) s')
  else if String.eqb toolName "logdump_groups" then
    let '(resp, s') := toolGroups id agentID s in
    Returned (resp, s', logToolCall toolName args 0 (Now 1) s')
  else if String.eqb toolName "logdump_create_group" then
    let '(resp, s') := toolCreateGroup Now args id agentID s in
    Returned (resp, s', logToolCall toolName args (-1) (Now 2) s')
  else if String.eqb toolName "logdump_stats" then
    let '(resp, s') := toolStats id agentID s in
    Returned (resp, s', logToolCall toolName args (-1) (Now 1) s')
  else if String.eqb toolName "logdump_access_log" then
    let resp := toolAccessLog args id agentID s in
    Returned (resp, s, logToolCall toolName args 0 (Now 0) s)
  else
    Returned (errorResponse (-32601) ("Method not found: " +:+ toolName) id, s, []).

(** The resources [handleResourcesList] lists: the groups in the order
    the map is ranged over, then the streams of the configuration. *)
Definition handleResourcesList_resources (s : Server) : list Resource :=
  map (fun '(name, group) =>
         {| uri := "logdump://group/" +:+ name;
            name := Name group;
            mimeType := "text/plain";
            description := "Log group: " +:+ Name group +:+ " (pattern: " +:+
                           Pattern group +:+ ")" |})
      (Range _ (logGroups s)) ++
  map (fun stream =>
         {| uri := "logdump://stream/" +:+ ToLower (config.Name stream);
            name := config.Name stream;
            mimeType := "text/plain";
            description := "Log stream from " +:+ config.Path stream |})
      (config.Streams (config s)).

End Tools.

End mcp.

(** ** A reference engine for a fragment of the pattern syntax

    Literals, [.], the repetitions [*], [+] and [?] (also in their lazy
    forms), alternation, groups, and a leading [(?i)]. It is an instance of
    [regexp.Engine] to run the program on; the statements about the
    program hold for every engine. Syntax outside the fragment is reported
    as an error of its own. *)

Module refregexp.

Inductive re :=
| Eps
| Lit (c : ascii)
| Any
| Cat (a b : re)
| Alt (a b : re)
| Star (a : re)
| Fail_.

Fixpoint nullable (r : re) : bool :=
  match r with
  | Eps | Star _ => true
  | Lit _ | Any | Fail_ => false
  | Cat a b => nullable a && nullable b
  | Alt a b => nullable a || nullable b
  end.

(** Folding of the ASCII capitals, for [(?i)]. *)
Definition lower (c : ascii) : ascii :=
  let n := nat_of_ascii c in
  if ((65 <=? n) && (n <=? 90))%nat then ascii_of_nat (n + 32) else c.

Section Matching.
Context (foldCase : bool).

Definition sameChar (a b : ascii) : bool :=
  if foldCase then Ascii.eqb (lower a) (lower b) else Ascii.eqb a b.

(** The derivative of a pattern by a byte. *)
Fixpoint deriv (c : ascii) (r : re) : re :=
  match r with
  | Eps | Fail_ => Fail_
  | Lit a => if sameChar a c then Eps else Fail_
  | Any => if Ascii.eqb c gostr.newline then Fail_ else Eps
  | Cat a b =>
      if nullable a then Alt (Cat (deriv c a) b) (deriv c b)
      else Cat (deriv c a) b
  | Alt a b => Alt (deriv c a) (deriv c b)
  | Star a => Cat (deriv c a) (Star a)
  end.

(** Some prefix of [s] matches [r]. *)
Fixpoint matchPrefix (r : re) (s : list ascii) : bool :=
  nullable r ||
  match s with
  | [] => false
  | c :: s' => matchPrefix (deriv c r) s'
  end.

(** Some substring of [s] matches [r]. *)
Fixpoint matchAnywhere (r : re) (s : list ascii) : bool :=
  matchPrefix r s ||
  match s with
  | [] => false
  | _ :: s' => matchAnywhere r s'
  end.

End Matching.

(** *** Parsing, with a stack of open groups *)

Record frame := {
  alts : list re;   (** the alternatives of the group that are complete *)
  items : list re   (** the current alternative, last item first *)
}.

Definition concat_items (its : list re) : re :=
  fold_left (fun acc r => Cat r acc) its Eps.

Definition close (f : frame) : re :=
  fold_right Alt (concat_items (items f)) (alts f).

Record pstate := {
  stack : list frame;   (** the groups still open, innermost first, under [top] *)
  top : frame;
  reps : nat            (** repetition operators just seen on the last item *)
}.

Definition push (r : re) (st : pstate) : pstate :=
  {| stack := stack st;
     top := {| alts := alts (top st); items := r :: items (top st) |};
     reps := 0 |}.

Definition repeat_ (op : ascii) (st : pstate) : pstate + string :=
  match items (top st), reps st with
  | [], _ => inr "missing argument to repetition operator"
  | x :: its, O =>
      let r := if Ascii.eqb op "*" then Star x
               else if Ascii.eqb op "+" then Cat x (Star x)
               else Alt x Eps in
      inl {| stack := stack st;
             top := {| alts := alts (top st); items := r :: its |};
             reps := 1 |}
  | _ :: _, S O =>
      if Ascii.eqb op "?" then
        inl {| stack := stack st; top := top st; reps := 2 |}
      else inr "invalid nested repetition operator"
  | _ :: _, _ => inr "invalid nested repetition operator"
  end.

Definition step (st : pstate) (c : ascii) : pstate + string :=
  if Ascii.eqb c "(" then
    inl {| stack := top st :: stack st;
           top := {| alts := []; items := [] |};
           reps := 0 |}
  else if Ascii.eqb c ")" then
    match stack st with
    | [] => inr "unexpected )"
    | parent :: rest =>
        inl (push (close (top st)) {| stack := rest; top := parent; reps := 0 |})
    end
  else if Ascii.eqb c "|" then
    inl {| stack := stack st;
           top := {| alts := alts (top st) ++ [concat_items (items (top st))];
                     items := [] |};
           reps := 0 |}
  else if Ascii.eqb c "*" || Ascii.eqb c "+" || Ascii.eqb c "?" then repeat_ c st
  else if Ascii.eqb c "." then inl (push Any st)
  else if Ascii.eqb c "\" || Ascii.eqb c "[" || Ascii.eqb c "{" ||
          Ascii.eqb c "^" || Ascii.eqb c "$" then
    inr "outside the fragment of the reference engine"
  else inl (push (Lit c) st).

Fixpoint parse (st : pstate) (l : list ascii) : re + string :=
  match l with
  | [] =>
      match stack st with
      | [] => inl (close (top st))
      | _ :: _ => inr "missing closing )"
      end
  | c :: l' =>
      match step st c with
      | inr err => inr err
      | inl st' =>
          match c, l' with
          | "("%char, "?"%char :: _ => inr "outside the fragment of the reference engine"
          | _, _ => parse st' l'
          end
      end
  end.

Record compiled := {
  foldCase : bool;
  prog : re
}.

Definition Compile (expr : string) : compiled + string :=
  let fold_ := gostr.HasPrefix expr "(?i)" in
  let body := gostr.bytes (gostr.TrimPrefix expr "(?i)") in
  match parse {| stack := []; top := {| alts := []; items := [] |}; reps := 0 |} body with
  | inl r => inl {| foldCase := fold_; prog := r |}
  | inr err => inr ("error parsing regexp: " +:+ err +:+ ": `" +:+ expr +:+ "`")
  end.

Definition MatchString (re_ : compiled) (s : string) : bool :=
  matchAnywhere (foldCase re_) (prog re_) (gostr.bytes s).

Definition engine : regexp.Engine :=
  {| regexp.Regexp := compiled;
     regexp.Compile := Compile;
     regexp.MatchString := MatchString |}.

End refregexp.

(** ** The command line (main.go) *)

Module cmd.


End cmd.

(** ** Vocabulary of the statements about the tools *)

Module requests.
Import mcp.

(** The pattern [toolGrep] searches for: the pattern of the request
    behind [(?i)] when the request asks for a case-insensitive search. *)
Definition fullPattern (params : gmap string Value) : string :=
  (match params !! "case_insensitive" with
   | Some (VBool true) => "(?i)"
   | _ => ""
   end) +:+ stringArg params "pattern".

(** The record [logAccess] writes. *)
Definition access (agentID action source pattern : string) (resultCount : Z)
    (now : Time) : AgentAccess :=
  {| AgentID := agentID; AgentName := ""; Action := action;
     Access_Source := source; Access_Pattern := pattern;
     Access_Timestamp := now; ResultCount := resultCount |}.

(** The server after the accesses [calls] were logged one by one. *)
Definition logAll (calls : list AgentAccess) (s : Server) : Server :=
  fold_left
    (fun s a =>
       logAccess (AgentID a) (Action a) (Access_Source a) (Access_Pattern a)
                 (ResultCount a) (Access_Timestamp a) s)
    calls s.

(** The part of the server no tool changes. *)
Definition frame (s : Server) : logtail.Manager * config.Config * string :=
  (manager s, config s, currentAgent s).

(** A group of the configuration as [NewServer] stores it, but for the
    time of its creation. *)
Definition stored (g : LogGroup) : string * string * string * list string :=
  (Name g, Pattern g, Color g, Streams g).

Definition configured (g : config.GroupConfig) : string * string * string * list string :=
  (config.Group_Name g, config.Group_Pattern g, config.Group_Color g, config.Group_Streams g).

End requests.

(** ** Vocabulary of the statements *)

Module history.
Import logtail.

(** The [n] most recently appended elements of a list in arrival order. *)
Definition newest {A} (n : nat) (l : list A) : list A :=
  drop (length l - n) l.

(** The manager after the entries [es] were appended one by one. *)
Definition appendAll (es : list LogEntry) (m : Manager) : Manager :=
  fold_left (fun m e => after (AddEntry e m)) es m.

(** The strings a reader yields from the bytes [r] before it reports
    [io.EOF]: each runs up to and includes a newline; bytes after the
    last newline are in none of them. *)
Fixpoint linesOf (cur r : list ascii) : list (list ascii) :=
  match r with
  | [] => []
  | c :: r' =>
      if Ascii.eqb c gostr.newline then (cur ++ [c]) :: linesOf [] r'
      else linesOf (cur ++ [c]) r'
  end.

Definition completeLines (r : list ascii) : list (list ascii) := linesOf [] r.

(** The entries a stream with configuration [cfg] and counter [n] builds
    for the strings [lines]. *)
Fixpoint entriesFrom (now : Z -> Time) (cfg : config.StreamConfig) (n : Z)
    (lines : list (list ascii)) : list LogEntry :=
  match lines with
  | [] => []
  | line :: rest =>
      let n' := goint.incr n in
      {| Timestamp := now n';
         Source := config.Name cfg;
         Content := gostr.TrimSuffix (gostr.str line) (String gostr.newline "");
         Tags := config.Tags cfg;
         Filtered := false;
         LineNumber := n' |} :: entriesFrom now cfg n' rest
  end.

(** What [ReadString] yields from the bytes [r] still to be read. *)
Definition nextString (r : list ascii) : list ascii * bool * list ascii :=
  match IndexNewline r with
  | Some i => (take (S i) r, false, drop (S i) r)
  | None => (r, true, [])
  end.

(** The number of newlines among the bytes [l]. *)
Definition newlines (l : list ascii) : nat :=
  length (List.filter (fun c => Ascii.eqb c gostr.newline) l).

(** The strings one iteration reads from a file whose bytes are [data]
    when the cursor is at [offset]. *)
Definition newLines (offset : nat) (data : list ascii) : list (list ascii) :=
  if (offset <? length data)%nat then completeLines (drop offset data) else [].

(** The cursor after that iteration. *)
Definition newOffset (offset : nat) (data : list ascii) : nat :=
  if (offset <? length data)%nat then length data else offset.

(** The strings read over several iterations. *)
Fixpoint linesRead (offset : nat) (snapshots : list (list ascii)) : list (list ascii) :=
  match snapshots with
  | [] => []
  | data :: rest => newLines offset data ++ linesRead (newOffset offset data) rest
  end.

(** The stream [addFile] creates for a path it opens. *)
Definition fresh (cfg : config.StreamConfig) (path : string) : Stream :=
  {| Stream_Config := cfg;
     Stream_File := {| File_Name := path; File_Pos := 0 |};
     Stream_LineNumber := 0 |}.

(** The counter after [k] increments. *)
Definition incrBy (k : nat) (n : Z) : Z := Nat.iter k goint.incr n.

(** The entries a follower sends over the iterations [snapshots]. *)
Definition emitted (now : Z -> Time) (fl : Follower) (snapshots : list (list ascii))
    : list LogEntry :=
  match run now fl snapshots with
  | Some (_, sent) => sent
  | None => []
  end.

(** A file that starts as [data] and grows by one chunk (possibly empty)
    before each iteration of a follower: its bytes at each iteration. *)
Fixpoint growth (data : list ascii) (chunks : list (list ascii)) : list (list ascii) :=
  match chunks with
  | [] => []
  | chunk :: rest => (data ++ chunk) :: growth (data ++ chunk) rest
  end.

(** The bytes of [lines] written one after the other, each closed by a
    newline. *)
Definition terminated (lines : list (list ascii)) : list ascii :=
  concat (map (fun l => l ++ [gostr.newline]) lines).




(** The stream of path [p] once the paths [found] that the source
    matches were added to the streams [before]: a path already followed
    keeps its stream. [opens] tells which paths are attempted at all. *)
Definition followed (os : OS) (cfg : config.StreamConfig) (found : list string)
    (opens : string -> bool) (before : gmap string Stream) (p : string) : option Stream :=
  match before !! p with
  | Some st => Some st
  | None =>
      if bool_decide (p ∈ found) && config.Matches os cfg p && opens p
      then Some (fresh cfg p)
      else None
  end.

(** Whether [os.Open] succeeds on a path. *)
Definition opens (os : OS) (p : string) : bool :=
  match Open os p with
  | inl _ => true
  | inr _ => false
  end.

End history.

(** ** Sample data *)

Module sample.
Import logtail.

Definition entry (source content : string) (n : Z) : LogEntry :=
  {| Timestamp := 0; Source := source; Content := content;
     Tags := []; Filtered := false; LineNumber := n |}.

(** A buffer holding one entry of the source [app]. *)
Definition oneEntry : Manager :=
  history.appendAll [entry "app" "a" 1] NewManager.

(** A buffer to which [a] and then [b] were appended. *)
Definition twoEntries : Manager :=
  history.appendAll [entry "app" "a" 1; entry "app" "b" 2] NewManager.

Definition nl : list ascii := [gostr.newline].

(** A source named [app] whose pattern matches every [.log] file. *)
Definition app : config.StreamConfig :=
  {| config.Name := "app"; config.Path := "/logs"; config.Patterns := ["*.log"];
     config.Tags := []; config.Color := "cyan" |}.

(** A machine with two log files and a text file in [/logs]. *)
Definition os : OS :=
  {| UserHomeDir := Some "/home/u";
     IsNotExist := fun p => negb (String.eqb p "/logs");
     Glob := fun pattern =>
               if String.eqb pattern "/logs/*" then
                 Some ["/logs/a.log"; "/logs/a.txt"; "/logs/b.log"]
               else if String.eqb pattern "/logs/*.log" then Some ["/logs/a.log"; "/logs/b.log"]
               else if String.eqb pattern "/logs/*.txt" then Some ["/logs/a.txt"]
               else Some [];
     Join := fun elems => gostr.Join elems "/";
     Match := fun pattern name =>
                if String.eqb pattern "*.log" then Some (gostr.HasSuffix name ".log")
                else Some (String.eqb pattern name);
     Open := fun path =>
               if String.eqb path "/logs/a.log" then inl (gostr.bytes "x" ++ nl)
               else if String.eqb path "/logs/b.log" then inl (gostr.bytes "y" ++ nl)
               else inr "no such file or directory" |}.

(** The manager after [Tail] was called for [app]. *)
Definition tailed : Manager := after (Tail os app NewManager).

Definition clock (n : Z) : Time := 0.

(** A buffer with entries of two sources. *)
Definition mixed : Manager :=
  history.appendAll
    [entry "db" "err 1" 1; entry "app" "err 2" 1; entry "app" "ok" 2]
    NewManager.

Definition noConfig : config.Config :=
  {| config.LogDir := ""; config.Streams := [];
     config.Theme := {| config.Background := ""; config.Foreground := "";
                        config.Accent := "" |};
     config.Filters := []; config.Groups := [] |}.

(** A server over [mixed] with the group [errors]: pattern [err],
    streams [app]. *)
Definition server : mcp.Server :=
  {| mcp.manager := mixed;
     mcp.config := noConfig;
     mcp.accessLog := [];
     mcp.logGroups :=
       {[ "errors" := {| mcp.Name := "errors"; mcp.Pattern := "err"; mcp.Color := "red";
                         mcp.Streams := ["app"]; mcp.CreatedAt := 0 |} ]};
     mcp.currentAgent := "" |}.

Definition format (layout : string) (t : Time) : string := layout.

Definition now (n : nat) : Time := 0.

(** The same machine when [/logs/b.log] cannot be opened. *)
Definition locked : OS :=
  {| UserHomeDir := UserHomeDir os;
     IsNotExist := IsNotExist os;
     Glob := Glob os;
     Join := Join os;
     Match := Match os;
     Open := fun path =>
               if String.eqb path "/logs/b.log" then inr "permission denied"
               else Open os path |}.

(** The pattern [ERR], compiled by the reference engine. *)
Definition ERR : refregexp.compiled :=
  {| refregexp.foldCase := false;
     refregexp.prog :=
       refregexp.Cat (refregexp.Lit "E")
         (refregexp.Cat (refregexp.Lit "R")
            (refregexp.Cat (refregexp.Lit "R") refregexp.Eps)) |}.


(** [strings.ToLower] on ASCII strings. *)
Definition lower (s : string) : string :=
  gostr.str (map refregexp.lower (gostr.bytes s)).

(** A map ranged over in the order of its keys' codes. *)
Definition range (A : Type) (m : gmap string A) : list (string * A) := map_to_list m.



(** A configuration with a stream named [App] and two groups named
    [errors]. *)
Definition appConfig : config.Config :=
  {| config.LogDir := "";
     config.Streams :=
       [{| config.Name := "App"; config.Path := "/logs"; config.Patterns := ["*.log"];
           config.Tags := []; config.Color := "cyan" |}];
     config.Theme := {| config.Background := ""; config.Foreground := "";
                        config.Accent := "" |};
     config.Filters := [];
     config.Groups :=
       [{| config.Group_Name := "errors"; config.Group_Pattern := "ERR";
           config.Group_Color := "red"; config.Group_Streams := ["App"] |};
        {| config.Group_Name := "errors"; config.Group_Pattern := "FATAL";
           config.Group_Color := "red"; config.Group_Streams := ["App"] |}] |}.

End sample.

(** * Properties *)

(** ** Go strings *)

Module string_facts.

Lemma str_bytes (s : string) : gostr.str (gostr.bytes s) = s.
Proof. apply string_of_list_ascii_of_string. Qed.

Lemma bytes_str (l : list ascii) : gostr.bytes (gostr.str l) = l.
Proof. apply list_ascii_of_string_of_list_ascii. Qed.

Lemma append_cons (c : ascii) (a b : string) : String c a +:+ b = String c (a +:+ b).
Proof. reflexivity. Qed.

Lemma append_nil (a : string) : a +:+ "" = a.
Proof. induction a as [| c a IH]; [done |]. rewrite append_cons. by rewrite IH. Qed.

Lemma str_app (a b : list ascii) : gostr.str (a ++ b) = gostr.str a +:+ gostr.str b.
Proof.
  unfold gostr.str. induction a as [| c a IH]; [done |].
  cbn [app string_of_list_ascii]. by rewrite append_cons, IH.
Qed.

Lemma len_append (a b : string) : gostr.len (a +:+ b) = (gostr.len a + gostr.len b)%nat.
Proof.
  unfold gostr.len. induction a as [| c a IH]; [done |].
  rewrite append_cons. cbn. by rewrite IH.
Qed.

Lemma substring_prefix (a b : string) :
  String.substring 0 (String.length a) (a +:+ b) = a.
Proof.
  induction a as [| c a IH]; [by destruct b |].
  rewrite append_cons. cbn. by rewrite IH.
Qed.

Lemma substring_all (a : string) : String.substring 0 (String.length a) a = a.
Proof. rewrite <- (append_nil a) at 2. apply substring_prefix. Qed.

(** The URI of a group resource is not the URI of a stream, and the
    name of the group is what follows its prefix. *)
Lemma group_uri_not_stream (name : string) :
  gostr.HasPrefix ("logdump://group/" +:+ name) "logdump://stream/" = false.
Proof. reflexivity. Qed.

Lemma HasPrefix_append (prefix rest : string) :
  gostr.HasPrefix (prefix +:+ rest) prefix = true.
Proof.
  unfold gostr.HasPrefix.
  induction prefix as [| c prefix IH]; [by destruct rest |].
  rewrite append_cons. cbn [String.prefix].
  destruct (ascii_dec c c); [exact IH | done].
Qed.

Lemma substring_skip (prefix rest : string) (m : nat) :
  String.substring (String.length prefix) m (prefix +:+ rest) = String.substring 0 m rest.
Proof.
  induction prefix as [| c prefix IH]; [done |].
  rewrite append_cons. cbn [String.length String.substring]. exact IH.
Qed.

Lemma TrimPrefix_append (prefix rest : string) :
  gostr.TrimPrefix (prefix +:+ rest) prefix = rest.
Proof.
  unfold gostr.TrimPrefix. rewrite HasPrefix_append, len_append.
  unfold gostr.len. rewrite substring_skip.
  replace (String.length prefix + String.length rest - String.length prefix)%nat
    with (String.length rest) by lia.
  apply substring_all.
Qed.

End string_facts.

(** ** The history buffer *)

Module buffer_facts.
Import logtail.

Import history.

(** Unfold the plumbing of an operation, not the arithmetic in it. *)
Ltac run_op :=
  cbv [AddEntry GetEntries GetBuffer Search bind ret event get setBuffer
       setStreams result after events];
  cbn [fst snd buffer streams entries tailOnly].

Lemma AddEntry_buffer (e : LogEntry) (m : Manager) :
  buffer (after (AddEntry e m)) = newest 1000 (buffer m ++ [e]).
Proof.
  unfold newest. run_op.
  destruct (Nat.ltb_spec 1000 (length (buffer m ++ [e]))) as [Hlt | Hle]; [done |].
  replace (length (buffer m ++ [e]) - 1000)%nat with 0%nat by lia. done.
Qed.

Lemma newest_length {A} (n : nat) (l : list A) :
  length (newest n l) = Nat.min n (length l).
Proof. unfold newest. rewrite length_drop. lia. Qed.

Lemma newest_app_newest {A} (n : nat) (l1 l2 : list A) :
  newest n (newest n l1 ++ l2) = newest n (l1 ++ l2).
Proof.
  unfold newest.
  rewrite <- (drop_app_le l1 l2 (length l1 - n)) by lia.
  rewrite drop_drop. f_equal.
  rewrite length_drop, !length_app. lia.
Qed.

Lemma appendAll_buffer (es : list LogEntry) (m : Manager) :
  (length (buffer m) <= 1000)%nat ->
  buffer (appendAll es m) = newest 1000 (buffer m ++ es).
Proof.
  revert m. induction es as [| e es IH]; intros m Hm.
  - cbn. rewrite app_nil_r. unfold newest.
    replace (length (buffer m) - 1000)%nat with 0%nat by lia. done.
  - cbn [appendAll fold_left]. fold (appendAll es (after (AddEntry e m))).
    rewrite IH.
    + rewrite AddEntry_buffer, newest_app_newest, <- app_assoc. done.
    + rewrite AddEntry_buffer, newest_length. lia.
Qed.

(** [StartBuffering] appends the entries of the channel in order. *)
Lemma drain_appendAll (pending : list LogEntry) :
  forall m, after (drain pending m) = appendAll pending m.
Proof.
  induction pending as [| e pending IH]; intros m; [done |].
  cbn [drain appendAll fold_left]. rewrite <- IH.
  unfold bind, after. destruct (AddEntry e m) as [[u m1] t1]. cbn [fst snd].
  destruct (drain pending m1) as [[u2 m2] t2]. done.
Qed.

Lemma collect_filter (keep : LogEntry -> bool) (b : list LogEntry) :
  collect keep b = List.filter keep b.
Proof.
  unfold collect.
  enough (H : forall acc,
             fold_left (fun acc entry => if keep entry then acc ++ [entry] else acc) b acc
             = acc ++ List.filter keep b) by apply (H []).
  induction b as [| e b IH]; intros acc; cbn.
  - by rewrite app_nil_r.
  - rewrite IH. destruct (keep e); [by rewrite <- app_assoc | done].
Qed.

(** What [GetEntries] returns, in closed form. *)
Lemma GetEntries_result (source : string) (limit : Z) (m : Manager) :
  result (GetEntries source limit m) =
    let matching := List.filter (fromSource source) (buffer m) in
    if 0 <? limit then newest (Z.to_nat limit) matching else matching.
Proof.
  run_op. rewrite collect_filter.
  set (matching := List.filter _ _).
  destruct (Z.ltb_spec 0 limit) as [Hpos | Hneg]; cbn [andb]; [| done].
  unfold newest.
  destruct (Z.ltb_spec limit (Z.of_nat (length matching))) as [Hlt | Hge].
  - f_equal. lia.
  - replace (length matching - Z.to_nat limit)%nat with 0%nat by lia. done.
Qed.

Lemma GetEntries_pure (source : string) (limit : Z) (m : Manager) :
  after (GetEntries source limit m) = m.
Proof. by destruct m. Qed.

End buffer_facts.

(** ** C1, C4, C5: appending to and reading from the buffer *)

Section BufferClaims.
Import logtail history buffer_facts.

(** C1. After every call of [AddEntry], for every sequence of calls on a
    new manager: the buffer holds at most 1000 entries, and they are
    exactly the min(n, 1000) most recently appended ones, in arrival
    order ([appended] is the sequence of the first [k] calls). *)
Theorem AddEntry_keeps_newest (tailOnly : bool) (es : list LogEntry) (k : nat) :
  let appended := take k es in
  let b := buffer (appendAll appended (NewManagerWithOptions tailOnly)) in
  (length b <= 1000)%nat /\
  length b = Nat.min (length appended) 1000 /\
  b = newest (Nat.min (length appended) 1000) appended.
Proof.
  intros appended b. subst b.
  rewrite appendAll_buffer by (cbn; lia).
  cbn [buffer NewManagerWithOptions app].
  rewrite newest_length. repeat split; [lia | lia |].
  unfold newest. f_equal. lia.
Qed.

Lemma filter_sublist {A} (f : A -> bool) (l : list A) :
  List.filter f l `sublist_of` l.
Proof.
  induction l as [| x l IH]; cbn; [constructor |].
  destruct (f x); by constructor.
Qed.

Lemma newest_sublist {A} (n : nat) (l : list A) : newest n l `sublist_of` l.
Proof. apply sublist_drop. Qed.

(** C4 fails for the empty source name, which [GetEntries] reads as
    "every source": the entry returned has another source than asked. *)
Lemma GetEntries_empty_source_returns_others :
  result (GetEntries "" 1 sample.oneEntry) = [sample.entry "app" "a" 1] /\
  Source (sample.entry "app" "a" 1) <> "".
Proof. split; [vm_compute; reflexivity | discriminate]. Qed.

(** C4, amended. For every buffer, every non-empty source name [S] and
    every limit [N >= 1], [GetEntries] returns only entries of source
    [S], at most [N] of them, in the order in which they were appended. *)
Theorem GetEntries_source_limit_order (m : Manager) (S : string) (N : Z) :
  S <> "" -> 1 <= N ->
  let r := result (GetEntries S N m) in
  Forall (fun e => Source e = S) r /\
  Z.of_nat (length r) <= N /\
  r `sublist_of` buffer m.
Proof.
  intros HS HN r. subst r. rewrite GetEntries_result. cbv zeta.
  replace (0 <? N) with true by (symmetry; apply Z.ltb_lt; lia).
  set (matching := List.filter _ _).
  assert (Hall : Forall (fun e => Source e = S) matching).
  { apply Forall_forall. intros e He.
    apply list_elem_of_In, filter_In in He as [_ He].
    unfold fromSource in He. apply orb_true_iff in He as [He | He].
    - apply String.eqb_eq in He. done.
    - by apply String.eqb_eq in He. }
  repeat split.
  - by apply Forall_drop.
  - rewrite newest_length. lia.
  - etrans; [apply newest_sublist | apply filter_sublist].
Qed.

Lemma GetEntries_source_limit_order_witness :
  let r := result (GetEntries "app" 1 sample.twoEntries) in
  Forall (fun e => Source e = "app") r /\
  Z.of_nat (length r) <= 1 /\
  r `sublist_of` buffer sample.twoEntries.
Proof.
  apply (GetEntries_source_limit_order sample.twoEntries "app" 1); [discriminate | lia].
Defined.

(** C5 fails as stated: the entries come oldest first. With [a] appended
    before [b], the first element returned is [a] and the newest
    matching entry, [b], is the last. *)
Lemma GetEntries_oldest_first :
  buffer sample.twoEntries = [sample.entry "app" "a" 1; sample.entry "app" "b" 2] /\
  result (GetEntries "" 10 sample.twoEntries)
    = [sample.entry "app" "a" 1; sample.entry "app" "b" 2] /\
  head (result (GetEntries "" 10 sample.twoEntries)) <> Some (sample.entry "app" "b" 2).
Proof. repeat split; [vm_compute; reflexivity .. | vm_compute; discriminate]. Qed.

Lemma last_newest {A} (n : nat) (l : list A) :
  (0 < n)%nat -> last (newest n l) = last l.
Proof.
  intros Hn. unfold newest.
  destruct l as [| x l] using rev_ind; [done |].
  rewrite length_app, drop_app_le by (cbn; lia).
  by rewrite !last_snoc.
Qed.

(** C5, amended. For every buffer, source filter and limit, [GetEntries]
    returns the matching entries of the whole retained buffer in arrival
    order, oldest first: the newest [limit] of them when [limit > 0], all
    of them otherwise; the newest matching entry is the last element. *)
Theorem GetEntries_newest_in_arrival_order (m : Manager) (source : string) (limit : Z) :
  let matching := List.filter (fromSource source) (buffer m) in
  let r := result (GetEntries source limit m) in
  r = (if 0 <? limit then newest (Z.to_nat limit) matching else matching) /\
  last r = last matching /\
  after (GetEntries source limit m) = m.
Proof.
  intros matching r. subst r. rewrite GetEntries_result. fold matching. cbv zeta.
  split; [reflexivity |]. split; [| apply GetEntries_pure].
  destruct (Z.ltb_spec 0 limit); [| done].
  apply last_newest. lia.
Qed.

End BufferClaims.

(** ** Followers: what one iteration reads *)

Module follower_facts.
Import logtail history.

Lemma IndexNewline_Some (buf : list ascii) (i : nat) :
  IndexNewline buf = Some i -> (i < length buf)%nat.
Proof.
  revert i. induction buf as [| c buf IH]; intros i; cbn; [done |].
  destruct (Ascii.eqb c gostr.newline).
  - intros [= <-]. lia.
  - destruct (IndexNewline buf) as [j |]; cbn; [| done].
    intros [= <-]. specialize (IH j eq_refl). lia.
Qed.

Lemma IndexNewline_app_Some (buf rest : list ascii) (i : nat) :
  IndexNewline buf = Some i -> IndexNewline (buf ++ rest) = Some i.
Proof.
  revert i. induction buf as [| c buf IH]; intros i; cbn; [done |].
  destruct (Ascii.eqb c gostr.newline); [done |].
  destruct (IndexNewline buf) as [j |]; cbn; [| done].
  intros [= <-]. by rewrite (IH j eq_refl).
Qed.

(** [ReadString] does not depend on how the reader fills its buffer: it
    yields the next string of the bytes still to be read, and when it
    reports [io.EOF] the file has been read to its end. *)
Lemma ReadString_spec (fuel : nat) (data : list ascii) :
  forall (f : File) (buf : list ascii),
    (length (drop (File_Pos f) data) <= fuel)%nat ->
    exists f' buf',
      ReadString fuel data f buf
        = Some (fst (fst (nextString (buf ++ drop (File_Pos f) data))),
                snd (fst (nextString (buf ++ drop (File_Pos f) data))), f', buf') /\
      File_Name f' = File_Name f /\
      buf' ++ drop (File_Pos f') data = snd (nextString (buf ++ drop (File_Pos f) data)) /\
      (File_Pos f <= File_Pos f' <= Nat.max (File_Pos f) (length data))%nat /\
      (snd (fst (nextString (buf ++ drop (File_Pos f) data))) = true ->
       File_Pos f' = Nat.max (File_Pos f) (length data)).
Proof.
  induction fuel as [| fuel IH]; intros f buf Hfuel.
  - (* nothing left in the file *)
    assert (Hnil : drop (File_Pos f) data = []) by (apply nil_length_inv; lia).
    pose proof (length_drop data (File_Pos f)) as Hlen. rewrite Hnil in Hlen. cbn in Hlen.
    unfold nextString. rewrite Hnil, app_nil_r. cbn [ReadString Read].
    rewrite Hnil. cbn [take length].
    destruct (IndexNewline buf) as [i |] eqn:Hi.
    + exists f, (drop (S i) buf). cbn. rewrite Hnil, app_nil_r.
      repeat split; [lia | lia | done].
    + exists (withPos f (File_Pos f + 0)), []. cbn.
      rewrite Nat.add_0_r, Hnil. repeat split; lia.
  - cbn [ReadString].
    destruct (IndexNewline buf) as [i |] eqn:Hi.
    + exists f, (drop (S i) buf).
      unfold nextString. rewrite (IndexNewline_app_Some _ _ _ Hi). cbn [fst snd].
      pose proof (IndexNewline_Some _ _ Hi).
      rewrite take_app_le, drop_app_le by lia.
      repeat split; [lia | lia | done].
    + cbn [Read].
      pose proof (length_drop data (File_Pos f)) as Hlen.
      set (r := drop (File_Pos f) data) in *.
      destruct (take defaultBufSize r) as [| c chunk] eqn:Hchunk.
      * assert (Hnil : r = []).
        { destruct r; [done | discriminate Hchunk]. }
        rewrite Hnil in Hlen. cbn in Hlen.
        exists (withPos f (File_Pos f + 0)), [].
        unfold nextString. rewrite Hnil, app_nil_r, Hi. cbn.
        rewrite Nat.add_0_r. fold r. rewrite Hnil. repeat split; lia.
      * set (f1 := withPos f (File_Pos f + length (c :: chunk))).
        assert (Hsplit : r = (c :: chunk) ++ drop (File_Pos f1) data).
        { subst f1. cbn [File_Pos withPos].
          rewrite <- drop_drop. fold r. rewrite <- Hchunk.
          rewrite length_take.
          destruct (Nat.le_ge_cases defaultBufSize (length r)).
          - rewrite Nat.min_l by lia. by rewrite take_drop.
          - rewrite Nat.min_r by lia. rewrite take_ge, drop_all, app_nil_r by lia. done. }
        pose proof (f_equal length Hsplit) as Hsize. rewrite length_app in Hsize.
        destruct (IH f1 (buf ++ c :: chunk)) as (f' & buf' & Hrun & Hname & Hrest & Hpos & Heof).
        { cbn [length] in Hsize. lia. }
        rewrite <- app_assoc, <- Hsplit in Hrun, Hrest, Heof.
        exists f', buf'.
        subst f1. cbn [File_Pos File_Name withPos length] in *.
        repeat split; [exact Hrun | exact Hname | exact Hrest | lia | lia |].
        intros Htrue. rewrite (Heof Htrue). lia.
Qed.

Lemma linesOf_next (r : list ascii) :
  forall cur,
    linesOf cur r =
      match IndexNewline r with
      | Some i => (cur ++ take (S i) r) :: linesOf [] (drop (S i) r)
      | None => []
      end.
Proof.
  induction r as [| c r IH]; intros cur; cbn [linesOf IndexNewline]; [done |].
  destruct (Ascii.eqb c gostr.newline); [done |].
  rewrite IH. destruct (IndexNewline r) as [i |]; cbn [option_map]; [| done].
  cbn [take drop]. by rewrite <- app_assoc.
Qed.

Lemma incrBy_succ (k : nat) (n : Z) :
  incrBy (S k) n = incrBy k (goint.incr n).
Proof. unfold incrBy. apply Nat.iter_succ_r. Qed.

Section Reading.
Context (now : Z -> Time).

(** The inner loop sends one entry for each complete line between the
    reader and the end of the file, and leaves the file at its end. *)
Lemma readLines_spec (fuel : nat) (data : list ascii) :
  forall (s : Stream) (buf : list ascii) (sent : list LogEntry),
    (length (buf ++ drop (File_Pos (Stream_File s)) data) <= fuel)%nat ->
    exists s',
      readLines now fuel data s buf sent
        = Some (s', sent ++ entriesFrom now (Stream_Config s) (Stream_LineNumber s)
                              (completeLines (buf ++ drop (File_Pos (Stream_File s)) data))) /\
      Stream_Config s' = Stream_Config s /\
      Stream_LineNumber s'
        = incrBy (length (completeLines (buf ++ drop (File_Pos (Stream_File s)) data)))
                 (Stream_LineNumber s) /\
      File_Name (Stream_File s') = File_Name (Stream_File s) /\
      File_Pos (Stream_File s')
        = Nat.max (File_Pos (Stream_File s)) (length data).
Proof.
  induction fuel as [| fuel IH]; intros s buf sent Hfuel.
  all: destruct (ReadString_spec (S (length data)) data (Stream_File s) buf)
         as (f' & buf' & Hread & Hname & Hrest & Hpos & Heof);
       [rewrite length_drop; lia |].
  all: unfold completeLines; rewrite linesOf_next.
  all: cbn [readLines]; rewrite Hread; clear Hread.
  all: unfold nextString in *.
  all: destruct (IndexNewline (buf ++ drop (File_Pos (Stream_File s)) data))
         as [i |] eqn:Hi; cbn [fst snd] in *.
  - apply IndexNewline_Some in Hi. lia.
  - cbn [entriesFrom length]. rewrite app_nil_r.
    eexists. split; [reflexivity |]. cbn.
    repeat split; [done | by apply Heof].
  - pose proof (IndexNewline_Some _ _ Hi) as Hlt.
    set (r := buf ++ drop (File_Pos (Stream_File s)) data) in *.
    cbn [emit].
    match goal with
    | |- context [readLines now fuel data ?s1 buf' ?sent1] =>
        destruct (IH s1 buf' sent1) as (s' & Hrun & Hcfg & Hnum & Hfile & Hend)
    end.
    { cbn [Stream_File]. rewrite Hrest, length_drop. lia. }
    cbn [Stream_File Stream_Config Stream_LineNumber] in *.
    rewrite Hrest in Hrun, Hnum.
    exists s'. split.
    { rewrite Hrun. f_equal. f_equal. rewrite <- app_assoc. done. }
    cbn [length app]. rewrite incrBy_succ.
    repeat split; [done | done | congruence | lia].
  - cbn [entriesFrom length]. rewrite app_nil_r.
    eexists. split; [reflexivity |]. cbn.
    repeat split; [done | by apply Heof].
Qed.

Lemma entriesFrom_app (cfg : config.StreamConfig) (a b : list (list ascii)) :
  forall n,
    entriesFrom now cfg n (a ++ b)
      = entriesFrom now cfg n a ++ entriesFrom now cfg (incrBy (length a) n) b.
Proof.
  induction a as [| l a IH]; intros n; [done |].
  cbn [app entriesFrom length]. rewrite IH, incrBy_succ. done.
Qed.

Lemma entriesFrom_length (cfg : config.StreamConfig) (ls : list (list ascii)) :
  forall n, length (entriesFrom now cfg n ls) = length ls.
Proof. induction ls as [| l ls IH]; intros n; cbn; [done | by rewrite IH]. Qed.

(** One iteration, in closed form: it sends the complete lines between
    the cursor and the end of the file, and moves the cursor to the
    end of the file. *)
Lemma poll_spec (fl : Follower) (data : list ascii) :
  exists fl',
    poll now fl data
      = Some (fl', entriesFrom now (Stream_Config (stream fl))
                     (Stream_LineNumber (stream fl)) (newLines (offset fl) data)) /\
    Stream_Config (stream fl') = Stream_Config (stream fl) /\
    Stream_LineNumber (stream fl')
      = incrBy (length (newLines (offset fl) data)) (Stream_LineNumber (stream fl)) /\
    offset fl' = newOffset (offset fl) data.
Proof.
  unfold poll, newLines, newOffset, SeekEnd, SeekStart, SeekCurrent.
  destruct (Nat.ltb_spec (offset fl) (length data)) as [Hlt | Hge].
  - match goal with
    | |- context [readLines now ?fuel data ?s1 [] []] =>
        destruct (readLines_spec fuel data s1 [] [])
          as (s' & Hrun & Hcfg & Hnum & Hname & Hpos)
    end.
    { cbn. rewrite length_drop. lia. }
    cbn [Stream_File Stream_Config Stream_LineNumber File_Pos withPos app] in *.
    rewrite Hrun. eexists. split; [reflexivity |].
    cbn [stream offset Stream_Config Stream_LineNumber].
    repeat split; [done | done | lia].
  - eexists. split; [reflexivity |]. done.
Qed.

(** The whole loop, in closed form. *)
Lemma run_spec (snapshots : list (list ascii)) :
  forall fl : Follower,
    exists fl',
      run now fl snapshots
        = Some (fl', entriesFrom now (Stream_Config (stream fl))
                       (Stream_LineNumber (stream fl))
                       (linesRead (offset fl) snapshots)) /\
      Stream_Config (stream fl') = Stream_Config (stream fl).
Proof.
  induction snapshots as [| data rest IH]; intros fl.
  - exists fl. done.
  - destruct (poll_spec fl data) as (fl1 & Hpoll & Hcfg & Hnum & Hoff).
    destruct (IH fl1) as (fl2 & Hrun & Hcfg2).
    exists fl2. cbn [run linesRead].
    rewrite Hpoll, Hrun, entriesFrom_app, Hcfg, Hnum, Hoff.
    split; [done | congruence].
Qed.

Lemma emitted_spec (fl : Follower) (snapshots : list (list ascii)) :
  emitted now fl snapshots
    = entriesFrom now (Stream_Config (stream fl)) (Stream_LineNumber (stream fl))
        (linesRead (offset fl) snapshots).
Proof.
  unfold emitted. destruct (run_spec snapshots fl) as (fl' & -> & _). done.
Qed.

Lemma entriesFrom_Source (cfg : config.StreamConfig) (ls : list (list ascii)) :
  forall n, Forall (fun e => Source e = config.Name cfg) (entriesFrom now cfg n ls).
Proof. induction ls as [| l ls IH]; intros n; cbn; constructor; [done | apply IH]. Qed.

Lemma entriesFrom_LineNumber (cfg : config.StreamConfig) (ls : list (list ascii)) :
  forall j : nat,
    Z.of_nat (j + length ls) < 2 ^ 63 ->
    map LineNumber (entriesFrom now cfg (Z.of_nat j) ls)
      = map Z.of_nat (seq (S j) (length ls)).
Proof.
  induction ls as [| l ls IH]; intros j Hj; [done |].
  cbn [length] in Hj.
  assert (Hincr : goint.incr (Z.of_nat j) = Z.of_nat (S j)).
  { unfold goint.incr, goint.wrap. rewrite Z.mod_small by lia. lia. }
  cbn [entriesFrom map length seq LineNumber]. rewrite Hincr.
  f_equal. apply IH. lia.
Qed.

End Reading.

(** *** Counting newlines *)

Lemma linesOf_length (r : list ascii) :
  forall cur, length (linesOf cur r) = newlines r.
Proof.
  unfold newlines.
  induction r as [| c r IH]; intros cur; cbn; [done |].
  destruct (Ascii.eqb c gostr.newline); cbn; by rewrite IH.
Qed.

Lemma newlines_app (a b : list ascii) : newlines (a ++ b) = (newlines a + newlines b)%nat.
Proof. unfold newlines. by rewrite List.filter_app, length_app. Qed.

Lemma newlines_terminated (lines : list (list ascii)) :
  Forall (fun l => gostr.newline ∉ l) lines ->
  newlines (terminated lines) = length lines.
Proof.
  induction 1 as [| l lines Hl _ IH]; [done |].
  unfold terminated in *. cbn [map concat length].
  rewrite !newlines_app, IH.
  assert (Hzero : newlines l = 0%nat).
  { unfold newlines. clear -Hl. induction l as [| c l IHl]; [done |]. cbn.
    destruct (Ascii.eqb_spec c gostr.newline) as [-> | _].
    - exfalso. apply Hl. apply elem_of_cons. by left.
    - apply IHl. intros Hin. apply Hl. apply elem_of_cons. by right. }
  rewrite Hzero. done.
Qed.

(** A follower that is at the end of a file reads exactly the bytes by
    which the file grows, chunk by chunk. *)
Lemma linesRead_growth (chunks : list (list ascii)) :
  forall data,
    linesRead (length data) (growth data chunks) = concat (map completeLines chunks).
Proof.
  induction chunks as [| chunk chunks IH]; intros data; [done |].
  cbn [growth linesRead map concat].
  unfold newLines, newOffset. rewrite length_app.
  destruct (Nat.ltb_spec (length data) (length data + length chunk)) as [Hlt | Hge].
  - rewrite drop_app_length. f_equal.
    rewrite <- length_app. apply IH.
  - assert (chunk = []) as -> by (apply nil_length_inv; lia).
    cbn [completeLines linesOf app]. rewrite <- (IH (data ++ [])).
    by rewrite length_app, Nat.add_0_r.
Qed.

Lemma completeLines_concat_length (chunks : list (list ascii)) :
  length (concat (map completeLines chunks)) = newlines (concat chunks).
Proof.
  induction chunks as [| chunk chunks IH]; [done |].
  cbn [map concat]. rewrite length_app, newlines_app, IH.
  unfold completeLines. by rewrite linesOf_length.
Qed.

End follower_facts.

(** ** C2, C6, C7: what a follower emits *)

Section FollowerClaims.
Import logtail history follower_facts.

(** C2 fails across the files of one source: every file gets a stream
    that counts from zero, so a source whose pattern matches two files
    emits the number 1 twice. *)
Lemma LineNumber_repeats_across_files :
  result (Tail sample.os sample.app NewManager) = None /\
  streams sample.tailed
    = {[ "/logs/a.log" := fresh sample.app "/logs/a.log";
         "/logs/b.log" := fresh sample.app "/logs/b.log" ]} /\
  emitted sample.clock (start (fresh sample.app "/logs/a.log") false [])
          [gostr.bytes "x" ++ sample.nl] = [sample.entry "app" "x" 1] /\
  emitted sample.clock (start (fresh sample.app "/logs/b.log") false [])
          [gostr.bytes "y" ++ sample.nl] = [sample.entry "app" "y" 1].
Proof. repeat split; vm_compute; reflexivity. Qed.

(** C2, amended. For every file a source follows, the entries emitted
    for that file are numbered 1, 2, 3, ... in the order of emission,
    without gaps or repeats, however the growth of the file is spread
    over the iterations, as long as the [int] counter does not overflow
    (fewer than 2^63 entries); all of them carry the name of the source. *)
Theorem LineNumber_counts_per_file (now : Z -> Time) (cfg : config.StreamConfig)
    (path : string) (tailOnly : bool) (data : list ascii)
    (snapshots : list (list ascii)) :
  let fl := start (fresh cfg path) tailOnly data in
  let sent := emitted now fl snapshots in
  Z.of_nat (length sent) < 2 ^ 63 ->
  is_Some (run now fl snapshots) /\
  map LineNumber sent = map Z.of_nat (seq 1 (length sent)) /\
  Forall (fun e => Source e = config.Name cfg) sent.
Proof.
  intros fl sent Hlen. subst sent.
  destruct (run_spec now snapshots fl) as (fl' & Hrun & _).
  split; [by rewrite Hrun |].
  rewrite emitted_spec in *.
  assert (Hcfg : Stream_Config (stream fl) = cfg) by (subst fl; by destruct tailOnly).
  assert (Hnum : Stream_LineNumber (stream fl) = Z.of_nat 0) by (subst fl; by destruct tailOnly).
  rewrite Hcfg, Hnum in *. rewrite entriesFrom_length in *.
  split; [| apply entriesFrom_Source].
  apply entriesFrom_LineNumber. lia.
Qed.

Lemma LineNumber_counts_per_file_witness :
  let fl := start (fresh sample.app "/logs/a.log") false [] in
  let sent := emitted sample.clock fl
                [gostr.bytes "x" ++ sample.nl;
                 gostr.bytes "x" ++ sample.nl ++ gostr.bytes "y" ++ sample.nl] in
  is_Some (run sample.clock fl
             [gostr.bytes "x" ++ sample.nl;
              gostr.bytes "x" ++ sample.nl ++ gostr.bytes "y" ++ sample.nl]) /\
  map LineNumber sent = map Z.of_nat (seq 1 (length sent)) /\
  Forall (fun e => Source e = "app") sent.
Proof.
  apply (LineNumber_counts_per_file sample.clock sample.app "/logs/a.log" false []).
  vm_compute. reflexivity.
Defined.

(** C6 at a failing input. The file holds [ab] at one iteration and
    [abcd] followed by a newline at the next. The first iteration emits
    nothing but moves the cursor to 2, past the unfinished line; the
    second emits [cd]. The line [abcd] is never emitted. *)
Theorem partial_line_is_consumed :
  let fl := start (fresh sample.app "/logs/a.log") false [] in
  (exists fl1, poll sample.clock fl (gostr.bytes "ab") = Some (fl1, []) /\ offset fl1 = 2%nat) /\
  emitted sample.clock fl [gostr.bytes "ab"; gostr.bytes "abcd" ++ sample.nl]
    = [sample.entry "app" "cd" 1] /\
  completeLines (gostr.bytes "abcd" ++ sample.nl) = [gostr.bytes "abcd" ++ sample.nl].
Proof.
  cbv zeta. split; [| split; vm_compute; reflexivity].
  eexists. split; vm_compute; reflexivity.
Qed.

(** The cursor after an iteration that read something is the size of
    the file, whether the file ends in a newline or not. *)
Lemma poll_moves_cursor_to_end (now : Z -> Time) (fl : Follower) (data : list ascii) :
  exists fl' sent,
    poll now fl data = Some (fl', sent) /\
    offset fl' = if (offset fl <? length data)%nat then length data else offset fl.
Proof.
  destruct (poll_spec now fl data) as (fl' & Hpoll & _ & _ & Hoff).
  eauto.
Qed.

(** C7. In tail-only mode, whatever the file holds when the follower
    starts, and however the [M] newline-terminated lines appended
    afterwards are spread over the iterations, the follower terminates
    every iteration and emits exactly [M] entries. *)
Theorem tail_only_emits_appended_lines (now : Z -> Time) (s : Stream)
    (before : list ascii) (lines : list (list ascii)) (chunks : list (list ascii)) :
  Forall (fun l => gostr.newline ∉ l) lines ->
  concat chunks = terminated lines ->
  let fl := start s true before in
  is_Some (run now fl (growth before chunks)) /\
  length (emitted now fl (growth before chunks)) = length lines.
Proof.
  intros Hlines Hchunks fl.
  destruct (run_spec now (growth before chunks) fl) as (fl' & Hrun & _).
  split; [by rewrite Hrun |].
  rewrite emitted_spec, entriesFrom_length.
  subst fl. cbn [start SeekEnd offset].
  rewrite linesRead_growth, completeLines_concat_length, Hchunks.
  by apply newlines_terminated.
Qed.

Lemma tail_only_emits_appended_lines_witness :
  let fl := start (fresh sample.app "/logs/a.log") true (gostr.bytes "old" ++ sample.nl) in
  let chunks := [gostr.bytes "x" ++ sample.nl ++ gostr.bytes "y"; sample.nl] in
  is_Some (run sample.clock fl (growth (gostr.bytes "old" ++ sample.nl) chunks)) /\
  length (emitted sample.clock fl (growth (gostr.bytes "old" ++ sample.nl) chunks)) = 2%nat.
Proof.
  apply (tail_only_emits_appended_lines sample.clock (fresh sample.app "/logs/a.log")
           (gostr.bytes "old" ++ sample.nl) [gostr.bytes "x"; gostr.bytes "y"]).
  - vm_compute. repeat constructor; intros H; repeat (apply elem_of_cons in H as [H | H]; [discriminate H |]); by apply elem_of_nil in H.
  - vm_compute. reflexivity.
Defined.

End FollowerClaims.

(** ** C9: auto-discovery *)

Module discovery_facts.
Import config string_facts.

(** The map [existingStreams] answers whether a name is configured. *)
Lemma existingStreams_index (l : list StreamConfig) (name : string) :
  forall m0 : gmap string bool,
    index (fold_left (fun m s => <[Name s := true]> m) l m0) name
      = existsb (fun s => String.eqb (Name s) name) l || index m0 name.
Proof.
  induction l as [| s l IH]; intros m0; cbn [fold_left existsb]; [done |].
  rewrite IH. unfold index.
  destruct (String.eqb_spec (Name s) name) as [-> | Hne].
  - rewrite lookup_insert_eq. cbn. by rewrite orb_true_r.
  - by rewrite lookup_insert_ne.
Qed.

(** One turn of the loop, by whether the file is skipped. *)
Lemma discoverFile_step (cfg : Config) (exclude : gmap string bool) (logDir : string)
    (streams : list StreamConfig) (colorIdx : nat) (file : string) :
  discoverFile exclude
    (fold_left (fun m s => <[Name s := true]> m) (Streams cfg) ∅) logDir
    (streams, colorIdx) file
  = if skipped cfg exclude file then (streams, colorIdx)
    else (streams ++ synthesize logDir colorIdx [file], S colorIdx).
Proof.
  unfold discoverFile, skipped.
  rewrite existingStreams_index.
  replace (index ∅ (removeExtension (filepath.Base file))) with false
    by (unfold index; by rewrite lookup_empty).
  rewrite orb_false_r. done.
Qed.

(** The loop over the files appends the synthesized streams. *)
Lemma discover_loop (cfg : Config) (exclude : gmap string bool) (logDir : string)
    (files : list string) :
  forall (streams : list StreamConfig) (colorIdx : nat),
    fold_left
      (discoverFile exclude
         (fold_left (fun m s => <[Name s := true]> m) (Streams cfg) ∅) logDir)
      files (streams, colorIdx)
    = (streams ++
         synthesize logDir colorIdx
           (List.filter (fun file => negb (skipped cfg exclude file)) files),
       (colorIdx +
          length (List.filter (fun file => negb (skipped cfg exclude file)) files))%nat).
Proof.
  induction files as [| file files IH]; intros streams colorIdx; cbn [fold_left List.filter].
  - cbn. by rewrite app_nil_r, Nat.add_0_r.
  - rewrite discoverFile_step.
    destruct (skipped cfg exclude file); cbn [negb].
    + apply IH.
    + rewrite IH. cbn [synthesize length].
      rewrite <- app_assoc. cbn [app]. f_equal. lia.
Qed.

(** The extension [filepath.Ext] finds is a suffix of the path. *)
Lemma extScan_suffix (l : list ascii) :
  forall e, filepath.extScan l = Some e -> exists pre, l = pre ++ e.
Proof.
  unfold filepath.extScan.
  induction l as [| c l IH] using rev_ind; intros e; cbn; [done |].
  rewrite fold_left_app. cbn [fold_left].
  destruct (filepath.IsPathSeparator c); [done |].
  destruct (Ascii.eqb c "."); [intros [= <-]; by exists l |].
  destruct (fold_left _ l None) as [e0 |] eqn:He0; cbn [option_map]; [| done].
  intros [= <-]. destruct (IH e0 eq_refl) as [pre ->].
  exists pre. by rewrite app_assoc.
Qed.

(** Removing the extension and putting it back gives the base name. *)
Lemma removeExtension_Ext (base : string) :
  removeExtension base +:+ filepath.Ext base = base.
Proof.
  unfold removeExtension, filepath.Ext.
  destruct (filepath.extScan (gostr.bytes base)) as [e |] eqn:He.
  - destruct (extScan_suffix _ _ He) as [pre Hpre].
    assert (Hbase : base = gostr.str pre +:+ gostr.str e).
    { rewrite <- (str_bytes base), Hpre. apply str_app. }
    rewrite Hbase at 1 2 3. rewrite len_append.
    replace (gostr.len (gostr.str pre) + gostr.len (gostr.str e) - gostr.len (gostr.str e))%nat
      with (String.length (gostr.str pre)) by (unfold gostr.len; lia).
    by rewrite substring_prefix.
  - cbn [gostr.len String.length]. rewrite Nat.sub_0_r.
    rewrite <- (append_nil base) at 2.
    unfold gostr.len. rewrite substring_prefix. apply append_nil.
Qed.

End discovery_facts.

Section DiscoveryClaims.
Import config discovery_facts.

(** C9. For every configuration and exclusion set, [AutoDiscover] keeps
    the configured streams and appends one stream per discovered file
    that is not skipped, in the order of discovery: its name is the
    base name of the file without its extension, its pattern the base
    name, its color the entry of the six-color palette at the number of
    streams before it, modulo six; a file is skipped exactly when its
    derived name is excluded or names a stream configured before the
    call. Nothing else of the configuration changes. *)
Theorem AutoDiscover_synthesizes_streams (os : OS) (cfg : Config)
    (exclude : gmap string bool) :
  let cfg' := fst (AutoDiscover os cfg exclude) in
  Streams cfg' = discoverNew_spec (discoveryDir os cfg) cfg exclude (discoveredFiles os cfg) /\
  (LogDir cfg', Theme cfg', Filters cfg', Groups cfg')
    = (LogDir cfg, Theme cfg, Filters cfg, Groups cfg) /\
  Forall (fun s => exists file,
              In file (discoveredFiles os cfg) /\
              skipped cfg exclude file = false /\
              Name s +:+ filepath.Ext (filepath.Base file) = filepath.Base file /\
              In (Color s) streamColors)
         (drop (length (Streams cfg)) (Streams cfg')).
Proof.
  cbv zeta.
  assert (Hstreams : Streams (fst (AutoDiscover os cfg exclude))
            = discoverNew_spec (discoveryDir os cfg) cfg exclude (discoveredFiles os cfg)).
  { unfold AutoDiscover, discoveredFiles, discoverNew_spec.
    destruct (IsNotExist os (discoveryDir os cfg)); [cbn; by rewrite app_nil_r |].
    destruct (Glob os (Join os [discoveryDir os cfg; "*.log"])) as [files |];
      [| cbn; by rewrite app_nil_r].
    rewrite discover_loop. done. }
  split; [exact Hstreams |]. split.
  { unfold AutoDiscover.
    destruct (IsNotExist os (discoveryDir os cfg)); [done |].
    destruct (Glob os (Join os [discoveryDir os cfg; "*.log"])) as [files |]; [| done].
    rewrite discover_loop. done. }
  rewrite Hstreams. clear Hstreams. unfold discoverNew_spec. rewrite drop_app_length.
  generalize (length (Streams cfg)) as colorIdx.
  induction (discoveredFiles os cfg) as [| file files IH]; intros colorIdx; [constructor |].
  cbn [List.filter].
  destruct (skipped cfg exclude file) eqn:Hskip; cbn [negb].
  - eapply Forall_impl; [apply IH |].
    intros s (f & Hin & Hrest). exists f. split; [by right | exact Hrest].
  - cbn [synthesize]. constructor.
    + exists file. cbn [Name Color]. repeat split; [by left | done | apply removeExtension_Ext |].
      apply nth_In. change (length streamColors) with 6%nat.
      apply Nat.mod_upper_bound. done.
    + eapply Forall_impl; [apply IH |].
      intros s (f & Hin & Hrest). exists f. split; [by right | exact Hrest].
Qed.

(** Two discovered files with one base name both get a stream: names
    synthesized during the call are not looked up. *)
Example AutoDiscover_sample :
  map (fun s => (Name s, Patterns s, Color s))
      (Streams (fst (AutoDiscover sample.os
                       {| LogDir := "/logs"; Streams := [sample.app];
                          Theme := {| Background := ""; Foreground := ""; Accent := "" |};
                          Filters := []; Groups := [] |}
                       {[ "b" := true ]})))
  = [("app", ["*.log"], "cyan"); ("a", ["a.log"], "green"); ("a", ["a.txt"], "yellow")].
Proof. vm_compute. reflexivity. Qed.

(** A file named [.log] gets the empty stream name. *)
Example AutoDiscover_empty_name :
  removeExtension (filepath.Base "/logs/.log") = "".
Proof. vm_compute. reflexivity. Qed.

End DiscoveryClaims.

(** ** C8: searching with a pattern that does not compile *)

Section SearchClaims.
Import logtail history buffer_facts.
Context (E : regexp.Engine).

(** C8. [Search] decides on the pattern alone, before anything else: when
    the pattern does not compile it returns the invalid-pattern error
    with the cause, performs no event on any lock and leaves the manager
    as it was; when the pattern compiles it returns no error but the
    matching entries of the buffer in arrival order, read under the read
    lock, and leaves the manager as it was. *)
Theorem Search_invalid_pattern (m : Manager) (pattern source : string) :
  match regexp.Compile E pattern with
  | inr cause =>
      Search E pattern source m = (inr (InvalidPattern cause), m, [])
  | inl re =>
      Search E pattern source m
        = (inl (List.filter
                  (fun e => fromSource source e && regexp.MatchString E re (Content e))
                  (buffer m)),
           m, [RLock bufferMu; RUnlock bufferMu])
  end.
Proof.
  unfold Search.
  destruct (regexp.Compile E pattern) as [re | cause]; [| done].
  run_op. rewrite collect_filter. by destruct m.
Qed.

End SearchClaims.

(** The pattern of the scenario does not compile in the reference engine,
    and the search of the scenario answers as stated. *)
Example Search_open_parenthesis :
  exists cause,
    logtail.Search refregexp.engine "(" "" sample.mixed
      = (inr (logtail.InvalidPattern cause), sample.mixed, []).
Proof. eexists. vm_compute. reflexivity. Qed.

Example Search_scenario :
  let m := history.appendAll
             [sample.entry "app" "INFO x" 1; sample.entry "app" "ERRab" 2;
              sample.entry "app" "y ERROR" 3] logtail.NewManager in
  logtail.result (logtail.Search refregexp.engine "ERR" "" m)
    = inl [sample.entry "app" "ERRab" 2; sample.entry "app" "y ERROR" 3] /\
  logtail.result (logtail.Search refregexp.engine "err" "" m) = inl [].
Proof. split; vm_compute; reflexivity. Qed.

(** ** C3, C10: groups *)

Module group_facts.
Import mcp.

Lemma logAccess_logGroups (agentID action source pattern : string) (n : Z)
    (now : Time) (s : Server) :
  logGroups (logAccess agentID action source pattern n now s) = logGroups s.
Proof. reflexivity. Qed.

Lemma callManager_logGroups {A} (op : logtail.Op A) (s : Server) :
  logGroups (snd (callManager op s)) = logGroups s.
Proof. reflexivity. Qed.

Section WithRegexp.
Context (E : regexp.Engine).



End WithRegexp.

End group_facts.

Section GroupClaims.
Import mcp group_facts string_facts.

(** C3 at failing inputs. The buffer holds [err 1] of source [db], then
    [err 2] and [ok] of source [app]; the group [errors] has the pattern
    [err] and the stream [app]. Reading the resource of the group gives
    [err 2] alone, as the claim says. The read tool with the group also
    gives [err 1], whose source is not in the group; the search tool
    with the group gives [ok], which the pattern of the group does not
    match. *)
Theorem group_filter_differs_between_paths :
  (exists s',
      groupResource_entries refregexp.engine "errors" sample.server
        = Returned (Some [sample.entry "app" "err 2" 1], s')) /\
  (exists s',
      toolRead_entries refregexp.engine {[ "group" := VString "errors" ]} sample.server
        = Returned ([sample.entry "db" "err 1" 1; sample.entry "app" "err 2" 1], s')) /\
  (exists s',
      toolGrep_entries refregexp.engine
        {[ "pattern" := VString "ok"; "group" := VString "errors" ]} sample.server
        = (inl ([sample.entry "app" "ok" 2], 1), s')).
Proof. repeat split; eexists; vm_compute; reflexivity. Qed.

(** A group of two streams searches for the source [app,db], which no
    entry has: the search tool finds nothing in either stream. *)
Example grep_in_group_of_two_streams :
  let created :=
    toolCreateGroup sample.now
      {[ "name" := VString "all"; "pattern" := VString "err";
         "streams" := VString "app, db" ]} VNull "agent" sample.server in
  Streams <$> (logGroups (snd created) !! "all") = Some ["app"; "db"] /\
  searchSource {[ "pattern" := VString "err"; "group" := VString "all" ]} (snd created)
    = "app,db" /\
  fst (toolGrep_entries refregexp.engine
         {[ "pattern" := VString "err"; "group" := VString "all" ]} (snd created))
    = inl ([], 0).
Proof. repeat split; vm_compute; reflexivity. Qed.

(** C10. A group is created with whatever pattern it is given. When the
    pattern, behind [(?i)], does not compile, creating the group still
    succeeds and stores it, and from then on the read tool with that
    group and the read of the resource of that group both panic. *)
Theorem invalid_group_pattern_panics (E : regexp.Engine)
    (Format : string -> Time -> string) (Now : nat -> Time) (s : Server)
    (create read : gmap string Value) (id : Value)
    (agentID name pattern cause : string) :
  stringArg create "name" = name ->
  stringArg create "pattern" = pattern ->
  name <> "" ->
  pattern <> "" ->
  regexp.Compile E ("(?i)" +:+ pattern) = inr cause ->
  stringArg read "group" = name ->
  let created := toolCreateGroup Now create id agentID s in
  Error (fst created) = None /\
  Pattern <$> (logGroups (snd created) !! name) = Some pattern /\
  toolRead E Format Now read id agentID (snd created) = Panicked /\
  handleResourcesRead E Format
    (Some {[ "uri" := VString ("logdump://group/" +:+ name) ]}) id (snd created)
    = Panicked.
Proof.
  intros Hname Hpattern Hne Hnonempty Hcompile Hgroup created.
  assert (Hstored : exists g, logGroups (snd created) !! name = Some g /\ Pattern g = pattern).
  { subst created. unfold toolCreateGroup. cbn [snd].
    rewrite logAccess_logGroups. cbn [logGroups].
    rewrite Hname, Hpattern, lookup_insert_eq. eauto. }
  destruct Hstored as (g & Hg & Hpat).
  split; [reflexivity |]. split; [by rewrite Hg, <- Hpat |]. split.
  - unfold toolRead, toolRead_entries. rewrite Hgroup.
    cbv [callManager]. cbn [logGroups].
    apply String.eqb_neq in Hne. rewrite Hne. cbn [negb].
    rewrite Hg, Hpat.
    apply String.eqb_neq in Hnonempty. rewrite Hnonempty. cbn [negb].
    unfold regexp.MustCompile. by rewrite Hcompile.
  - unfold handleResourcesRead, decodeURI. rewrite lookup_singleton_eq.
    rewrite group_uri_not_stream, HasPrefix_append, TrimPrefix_append.
    unfold groupResource_entries, regexp.MustCompile.
    by rewrite Hg, Hpat, Hcompile.
Qed.

Lemma invalid_group_pattern_panics_witness :
  let created :=
    toolCreateGroup sample.now
      {[ "name" := VString "bad"; "pattern" := VString "(" ]} VNull "agent"
      sample.server in
  Error (fst created) = None /\
  Pattern <$> (logGroups (snd created) !! "bad") = Some "(" /\
  toolRead refregexp.engine sample.format sample.now
    {[ "group" := VString "bad" ]} VNull "agent" (snd created) = Panicked /\
  handleResourcesRead refregexp.engine sample.format
    (Some {[ "uri" := VString ("logdump://group/" +:+ "bad") ]}) VNull (snd created)
    = Panicked.
Proof.
  apply (invalid_group_pattern_panics refregexp.engine sample.format sample.now
           sample.server
           {[ "name" := VString "bad"; "pattern" := VString "(" ]}
           {[ "group" := VString "bad" ]} VNull "agent" "bad" "("
           "error parsing regexp: missing closing ): `(?i)(`").
  - vm_compute. reflexivity.
  - vm_compute. reflexivity.
  - discriminate.
  - discriminate.
  - vm_compute. reflexivity.
  - vm_compute. reflexivity.
Defined.

End GroupClaims.

(** * More of the code *)

(** ** The manager: following the files of a source *)

Module manager_facts.
Import logtail history.

Lemma bind_run {A B} (op : Op A) (k : A -> Op B) (m : Manager) :
  bind op k m
    = (result (k (result (op m)) (after (op m))),
       after (k (result (op m)) (after (op m))),
       events (op m) ++ events (k (result (op m)) (after (op m)))).
Proof.
  unfold bind, result, after, events.
  destruct (op m) as [[a m1] t1]. cbn [fst snd].
  destruct (k a m1) as [[b m2] t2]. reflexivity.
Qed.

Section WithOS.
Context (os : OS).

(** The three ways [addFile] ends. *)
Lemma addFile_spec (cfg : config.StreamConfig) (path : string) (m : Manager) :
  addFile os cfg path m =
    match streams m !! path with
    | Some _ => (None, m, [Lock mu; Unlock mu])
    | None =>
        match Open os path with
        | inr cause => (Some (FailedToOpen path cause), m, [Lock mu; Unlock mu])
        | inl _ =>
            (None,
             {| streams := <[path := fresh cfg path]> (streams m);
                entries := entries m; buffer := buffer m; tailOnly := tailOnly m |},
             [Lock mu; Unlock mu])
        end
    end.
Proof.
  unfold addFile. cbv [bind ret event get setStreams]. cbn [fst snd].
  destruct (streams m !! path); [reflexivity |].
  destruct (Open os path); reflexivity.
Qed.

Lemma addFile_result (cfg : config.StreamConfig) (path : string) (m : Manager) :
  result (addFile os cfg path m) =
    match streams m !! path with
    | Some _ => None
    | None =>
        match Open os path with
        | inr cause => Some (FailedToOpen path cause)
        | inl _ => None
        end
    end.
Proof.
  rewrite addFile_spec. destruct (streams m !! path); [done |].
  by destruct (Open os path).
Qed.

Lemma addFile_after (cfg : config.StreamConfig) (path : string) (m : Manager) :
  after (addFile os cfg path m) =
    match streams m !! path, Open os path with
    | None, inl _ =>
        {| streams := <[path := fresh cfg path]> (streams m);
           entries := entries m; buffer := buffer m; tailOnly := tailOnly m |}
    | _, _ => m
    end.
Proof.
  rewrite addFile_spec. destruct (streams m !! path); [done |].
  by destruct (Open os path).
Qed.

Lemma addFile_events (cfg : config.StreamConfig) (path : string) (m : Manager) :
  events (addFile os cfg path m) = [Lock mu; Unlock mu].
Proof.
  rewrite addFile_spec. destruct (streams m !! path); [done |].
  by destruct (Open os path).
Qed.

(** [addFile] touches nothing but the streams, and only adds to them. *)
Lemma addFile_frame (cfg : config.StreamConfig) (path : string) (m : Manager) :
  streams m ⊆ streams (after (addFile os cfg path m)) /\
  entries (after (addFile os cfg path m)) = entries m /\
  buffer (after (addFile os cfg path m)) = buffer m /\
  tailOnly (after (addFile os cfg path m)) = tailOnly m.
Proof.
  rewrite addFile_after.
  destruct (streams m !! path) eqn:Hp; [done |].
  destruct (Open os path); [| done].
  cbn. repeat split. by apply insert_subseteq.
Qed.

(** The loop of [Tail], when it ends without error: every path keeps the
    stream it had, and the other paths the source matches get a new one. *)
Lemma addMatches_ok (cfg : config.StreamConfig) (found : list string) :
  forall m : Manager,
    result (addMatches os cfg found m) = None ->
    forall p,
      streams (after (addMatches os cfg found m)) !! p
        = followed os cfg found (fun _ => true) (streams m) p.
Proof.
  induction found as [| path rest IH]; intros m Hok p; unfold followed.
  - cbn. by destruct (streams m !! p).
  - cbn [addMatches] in *.
    destruct (config.Matches os cfg path) eqn:Hmatch; cbn [negb] in *.
    + rewrite bind_run in *. cbn [result after fst snd] in *.
      rewrite addFile_result, addFile_after in Hok. rewrite addFile_result, addFile_after.
      destruct (streams m !! path) as [st |] eqn:Hpath.
      * rewrite (IH m Hok p). unfold followed.
        destruct (streams m !! p) eqn:Hp; [done |].
        rewrite !andb_true_r.
        destruct (decide (p = path)) as [-> | Hne]; [congruence |].
        rewrite (bool_decide_ext (p ∈ path :: rest) (p ∈ rest)); [done |].
        rewrite elem_of_cons. intuition.
      * destruct (Open os path) as [bytes | cause]; [| done].
        rewrite (IH _ Hok p). unfold followed. cbn [streams].
        destruct (decide (p = path)) as [-> | Hne].
        -- rewrite lookup_insert_eq, Hpath, Hmatch.
           rewrite bool_decide_eq_true_2 by (apply elem_of_cons; by left). done.
        -- rewrite lookup_insert_ne by done.
           destruct (streams m !! p); [done |].
           rewrite (bool_decide_ext (p ∈ path :: rest) (p ∈ rest)); [done |].
           rewrite elem_of_cons. intuition.
    + rewrite (IH m Hok p). unfold followed.
      destruct (streams m !! p); [done |].
      rewrite !andb_true_r.
      destruct (decide (p = path)) as [-> | Hne].
      * rewrite Hmatch, !andb_false_r. done.
      * rewrite (bool_decide_ext (p ∈ path :: rest) (p ∈ rest)); [done |].
        rewrite elem_of_cons. intuition.
Qed.

(** The loop of [Tail] fails only at a path the source matches, that was
    not followed and cannot be opened. *)
Lemma addMatches_error (cfg : config.StreamConfig) (found : list string) :
  forall (m : Manager) (err : error),
    result (addMatches os cfg found m) = Some err ->
    exists path cause,
      err = FailedToOpen path cause /\
      path ∈ found /\
      config.Matches os cfg path = true /\
      Open os path = inr cause /\
      streams (after (addMatches os cfg found m)) !! path = None.
Proof.
  induction found as [| path rest IH]; intros m err Herr; [done |].
  cbn [addMatches] in *.
  destruct (config.Matches os cfg path) eqn:Hmatch; cbn [negb] in *.
  - rewrite bind_run in *. cbn [result after fst snd] in *.
    rewrite addFile_result, addFile_after in Herr. rewrite addFile_result, addFile_after.
    destruct (streams m !! path) as [st |] eqn:Hpath.
    + destruct (IH m err Herr) as (q & cause & -> & Hin & Hrest).
      exists q, cause. split; [done |]. split; [apply elem_of_cons; by right | done].
    + destruct (Open os path) as [bytes | cause] eqn:Hopen.
      * destruct (IH _ err Herr) as (q & cause & -> & Hin & Hrest).
        exists q, cause. split; [done |]. split; [apply elem_of_cons; by right | done].
      * injection Herr as <-. exists path, cause.
        split; [done |]. split; [apply elem_of_cons; by left |].
        split; [done |]. split; [done |]. exact Hpath.
  - destruct (IH m err Herr) as (q & cause & -> & Hin & Hrest).
    exists q, cause. split; [done |]. split; [apply elem_of_cons; by right | done].
Qed.

(** Whatever the loop of [Tail] does, it only adds streams and performs
    one locking of [mu] for each path it adds or finds added. *)
Lemma addMatches_frame (cfg : config.StreamConfig) (found : list string) :
  forall m : Manager,
    streams m ⊆ streams (after (addMatches os cfg found m)) /\
    entries (after (addMatches os cfg found m)) = entries m /\
    buffer (after (addMatches os cfg found m)) = buffer m /\
    tailOnly (after (addMatches os cfg found m)) = tailOnly m /\
    exists n, events (addMatches os cfg found m) = concat (replicate n [Lock mu; Unlock mu]).
Proof.
  induction found as [| path rest IH]; intros m.
  - cbn. repeat split; [done |]. by exists 0%nat.
  - cbn [addMatches].
    destruct (config.Matches os cfg path); cbn [negb]; [| apply IH].
    rewrite bind_run. cbn [result after events fst snd].
    destruct (addFile_frame cfg path m) as (Hs & He & Hb & Ht).
    rewrite addFile_events.
    destruct (result (addFile os cfg path m)) as [e |].
    + cbn. repeat split; [done .. |]. by exists 1%nat.
    + destruct (IH (after (addFile os cfg path m))) as (Hs' & He' & Hb' & Ht' & n & Hn).
      repeat split; [by etrans | congruence | congruence | congruence |].
      exists (S n). by rewrite Hn.
Qed.


(** One tick of the watcher, in closed form. *)
Lemma rescan_loop (cfg : config.StreamConfig) (found : list string) :
  forall (m : Manager) (p : string),
    let loop :=
      fold_right
        (fun path rest =>
           if config.Matches os cfg path then addFile os cfg path >> rest else rest)
        (ret tt) found in
    streams (after (loop m)) !! p = followed os cfg found (opens os) (streams m) p /\
    entries (after (loop m)) = entries m /\
    buffer (after (loop m)) = buffer m /\
    tailOnly (after (loop m)) = tailOnly m /\
    exists n, events (loop m) = concat (replicate n [Lock mu; Unlock mu]).
Proof.
  induction found as [| path rest IH]; intros m p; cbv zeta in *; unfold followed.
  - cbn. split; [by destruct (streams m !! p) |]. repeat split. by exists 0%nat.
  - cbn [fold_right].
    destruct (config.Matches os cfg path) eqn:Hmatch.
    + rewrite bind_run. cbn [result after events fst snd].
      rewrite addFile_events.
      destruct (IH (after (addFile os cfg path m)) p) as (Hs & He & Hb & Ht & n & Hn).
      destruct (addFile_frame cfg path m) as (_ & He0 & Hb0 & Ht0).
      split; [| repeat split; [congruence .. | exists (S n); by rewrite Hn]].
      rewrite Hs. unfold followed, opens. rewrite addFile_after.
      destruct (streams m !! path) as [st |] eqn:Hpath.
      * destruct (streams m !! p) eqn:Hp; [done |].
        destruct (decide (p = path)) as [-> | Hne]; [congruence |].
        rewrite (bool_decide_ext (p ∈ path :: rest) (p ∈ rest)); [done |].
        rewrite elem_of_cons. intuition.
      * destruct (Open os path) as [bytes | cause] eqn:Hopen; cbn [streams].
        -- destruct (decide (p = path)) as [-> | Hne].
           ++ rewrite lookup_insert_eq, Hpath, Hmatch, Hopen.
              rewrite bool_decide_eq_true_2 by (apply elem_of_cons; by left). done.
           ++ rewrite lookup_insert_ne by done.
              destruct (streams m !! p); [done |].
              rewrite (bool_decide_ext (p ∈ path :: rest) (p ∈ rest)); [done |].
              rewrite elem_of_cons. intuition.
        -- destruct (streams m !! p) eqn:Hp; [done |].
           destruct (decide (p = path)) as [-> | Hne].
           ++ rewrite Hopen, !andb_false_r. done.
           ++ rewrite (bool_decide_ext (p ∈ path :: rest) (p ∈ rest)); [done |].
              rewrite elem_of_cons. intuition.
    + destruct (IH m p) as (Hs & Hrest).
      split; [| exact Hrest].
      rewrite Hs. unfold followed.
      destruct (streams m !! p); [done |].
      destruct (decide (p = path)) as [-> | Hne].
      * rewrite Hmatch, !andb_false_r. cbn. done.
      * rewrite (bool_decide_ext (p ∈ path :: rest) (p ∈ rest)); [done |].
        rewrite elem_of_cons. intuition.
Qed.


End WithOS.

End manager_facts.

Section ManagerExtras.
Import logtail history manager_facts buffer_facts.

(** X1. When [Tail] returns no error, every path followed before keeps
    its stream (and so its line counter), every other path of the
    directory that the source matches is followed by a new stream that
    counts from zero, and no other path is followed. *)
Theorem Tail_follows_matching_paths (os : OS) (cfg : config.StreamConfig)
    (m : Manager) (p : string) :
  result (Tail os cfg m) = None ->
  streams (after (Tail os cfg m)) !! p
    = followed os cfg (default [] (Glob os (Join os [config.Path cfg; "*"])))
        (fun _ => true) (streams m) p.
Proof.
  unfold Tail. destruct (Glob os (Join os [config.Path cfg; "*"])) as [found |]; [| done].
  intros Hok. by apply addMatches_ok.
Qed.

Lemma Tail_follows_matching_paths_witness :
  streams (after (Tail sample.os sample.app NewManager)) !! "/logs/b.log"
    = followed sample.os sample.app
        (default [] (Glob sample.os (Join sample.os [config.Path sample.app; "*"])))
        (fun _ => true) (streams NewManager) "/logs/b.log".
Proof.
  apply (Tail_follows_matching_paths sample.os sample.app NewManager "/logs/b.log").
  vm_compute. reflexivity.
Defined.

(** X2. [Tail] fails only when the glob of the directory is malformed, in
    which case nothing changes, or at a path the source matches that
    was not followed and cannot be opened; that path is not followed
    afterwards. *)
Theorem Tail_failure (os : OS) (cfg : config.StreamConfig) (m : Manager) (err : error) :
  result (Tail os cfg m) = Some err ->
  (err = ErrBadPattern /\
   Glob os (Join os [config.Path cfg; "*"]) = None /\
   after (Tail os cfg m) = m) \/
  (exists path cause,
      err = FailedToOpen path cause /\
      config.Matches os cfg path = true /\
      Open os path = inr cause /\
      streams m !! path = None /\
      streams (after (Tail os cfg m)) !! path = None).
Proof.
  unfold Tail. destruct (Glob os (Join os [config.Path cfg; "*"])) as [found |].
  - intros Herr. right.
    destruct (addMatches_error os cfg found m err Herr)
      as (path & cause & -> & Hin & Hmatch & Hopen & Hafter).
    exists path, cause. repeat split; [done .. | | done].
    destruct (addMatches_frame os cfg found m) as (Hsub & _).
    destruct (streams m !! path) as [st |] eqn:Hst; [| done].
    pose proof (lookup_weaken _ _ _ _ Hst Hsub). congruence.
  - intros [= <-]. left. done.
Qed.

Lemma Tail_failure_witness :
  (ErrBadPattern = FailedToOpen "/logs/b.log" "permission denied" /\
   Glob sample.locked (Join sample.locked [config.Path sample.app; "*"]) = None /\
   after (Tail sample.locked sample.app NewManager) = NewManager) \/
  (exists path cause,
      FailedToOpen "/logs/b.log" "permission denied" = FailedToOpen path cause /\
      config.Matches sample.locked sample.app path = true /\
      Open sample.locked path = inr cause /\
      streams NewManager !! path = None /\
      streams (after (Tail sample.locked sample.app NewManager)) !! path = None).
Proof.
  destruct (Tail_failure sample.locked sample.app NewManager
              (FailedToOpen "/logs/b.log" "permission denied")) as [H | H].
  - vm_compute. reflexivity.
  - destruct H as [H _]. discriminate H.
  - right. exact H.
Defined.



(** X4. One tick of the directory watcher follows the matching paths of
    the directory that are not followed yet and can be opened, each by a
    new stream; paths that cannot be opened are passed over without
    stopping the scan, streams that exist are kept, and the buffer is
    not touched. *)
Theorem rescan_follows_paths_that_open (os : OS) (cfg : config.StreamConfig)
    (m : Manager) (p : string) :
  streams (after (rescan os cfg m)) !! p
    = followed os cfg (default [] (Glob os (Join os [config.Path cfg; "*"])))
        (opens os) (streams m) p /\
  buffer (after (rescan os cfg m)) = buffer m /\
  entries (after (rescan os cfg m)) = entries m.
Proof.
  unfold rescan.
  destruct (rescan_loop os cfg (default [] (Glob os (Join os [config.Path cfg; "*"]))) m p)
    as (Hs & He & Hb & _).
  done.
Qed.


End ManagerExtras.

(** ** The buffer and the followers, continued *)

Module reading_facts.
Import logtail history string_facts.

Lemma HasSuffix_append (a suffix : string) :
  gostr.HasSuffix (a +:+ suffix) suffix = true.
Proof.
  unfold gostr.HasSuffix. rewrite len_append. unfold gostr.len.
  replace (String.length a + String.length suffix - String.length suffix)%nat
    with (String.length a) by lia.
  rewrite substring_skip, substring_all, String.eqb_refl.
  rewrite andb_true_r. apply Nat.leb_le. lia.
Qed.

Lemma TrimSuffix_append (a suffix : string) :
  gostr.TrimSuffix (a +:+ suffix) suffix = a.
Proof.
  unfold gostr.TrimSuffix. rewrite HasSuffix_append, len_append. unfold gostr.len.
  replace (String.length a + String.length suffix - String.length suffix)%nat
    with (String.length a) by lia.
  apply substring_prefix.
Qed.

(** A line without newline, closed by a newline, is read as one string. *)
Lemma linesOf_line (l rest : list ascii) :
  gostr.newline ∉ l ->
  forall cur,
    linesOf cur (l ++ gostr.newline :: rest)
      = (cur ++ l ++ [gostr.newline]) :: linesOf [] rest.
Proof.
  induction l as [| c l IH]; intros Hl cur.
  - reflexivity.
  - cbn [app linesOf].
    destruct (Ascii.eqb_spec c gostr.newline) as [-> | _].
    + exfalso. apply Hl, elem_of_cons. by left.
    + rewrite IH.
      * by rewrite <- app_assoc.
      * intros Hin. apply Hl, elem_of_cons. by right.
Qed.

Lemma completeLines_terminated (lines : list (list ascii)) :
  Forall (fun l => gostr.newline ∉ l) lines ->
  completeLines (terminated lines) = map (fun l => l ++ [gostr.newline]) lines.
Proof.
  unfold completeLines, terminated.
  induction 1 as [| l lines Hl _ IH]; [done |].
  cbn [map concat]. rewrite <- app_assoc. cbn [app].
  rewrite linesOf_line by done. by rewrite IH.
Qed.

Lemma entriesFrom_Content (now : Z -> Time) (cfg : config.StreamConfig)
    (lines : list (list ascii)) :
  forall n,
    map Content (entriesFrom now cfg n (map (fun l => l ++ [gostr.newline]) lines))
      = map gostr.str lines.
Proof.
  induction lines as [| l lines IH]; intros n; [done |].
  cbn [map entriesFrom Content]. rewrite IH. f_equal.
  rewrite str_app. apply TrimSuffix_append.
Qed.

Lemma filter_andb {A} (f g : A -> bool) (l : list A) :
  List.filter (fun x => f x && g x) l = List.filter g (List.filter f l).
Proof.
  induction l as [| x l IH]; [done |]. cbn.
  destruct (f x); cbn; [destruct (g x) |]; by rewrite IH.
Qed.

End reading_facts.

Section ReadingExtras.
Import logtail history buffer_facts follower_facts reading_facts.

(** X6. An entry that was just appended is the last one a read returns,
    whenever the read asks for its source (or for every source) with a
    limit of at least one. *)
Theorem appended_entry_is_read_last (m : Manager) (e : LogEntry)
    (source : string) (limit : Z) :
  fromSource source e = true ->
  1 <= limit ->
  last (result (GetEntries source limit (after (AddEntry e m)))) = Some e.
Proof.
  intros Hsrc Hlimit. rewrite GetEntries_result. cbv zeta.
  replace (0 <? limit) with true by (symmetry; apply Z.ltb_lt; lia).
  rewrite AddEntry_buffer. unfold newest at 2.
  rewrite drop_app_le by (rewrite length_app; cbn; lia).
  rewrite List.filter_app. cbn [List.filter]. rewrite Hsrc.
  unfold newest. rewrite drop_app_le by (rewrite length_app; cbn; lia).
  apply last_snoc.
Qed.

Lemma appended_entry_is_read_last_witness :
  last (result (GetEntries "app" 1
                  (after (AddEntry (sample.entry "app" "c" 3) sample.twoEntries))))
    = Some (sample.entry "app" "c" 3).
Proof.
  apply (appended_entry_is_read_last sample.twoEntries (sample.entry "app" "c" 3) "app" 1).
  - vm_compute. reflexivity.
  - lia.
Defined.

(** X7. A search with a pattern that compiles returns exactly the entries
    an unlimited read of the same source returns whose content the
    pattern matches, in the same order. *)
Theorem Search_filters_what_GetEntries_reads (E : regexp.Engine) (m : Manager)
    (pattern source : string) (re : regexp.Regexp E) :
  regexp.Compile E pattern = inl re ->
  result (Search E pattern source m)
    = inl (List.filter (fun e => regexp.MatchString E re (Content e))
             (result (GetEntries source 0 m))).
Proof.
  intros Hre. rewrite GetEntries_result. cbv zeta. cbn [Z.ltb Z.compare].
  unfold Search. rewrite Hre. run_op.
  by rewrite collect_filter, filter_andb.
Qed.

Lemma Search_filters_what_GetEntries_reads_witness :
  result (Search refregexp.engine "ERR" "app" sample.mixed)
    = inl (List.filter (fun e => regexp.MatchString refregexp.engine sample.ERR (Content e))
             (result (GetEntries "app" 0 sample.mixed))).
Proof.
  apply (Search_filters_what_GetEntries_reads refregexp.engine sample.mixed "ERR" "app"
           sample.ERR).
  vm_compute. reflexivity.
Defined.

(** X8. A follower never reads the same bytes twice: after an iteration
    on a file of some size, an iteration on a file that is not larger
    (unchanged, or truncated) emits nothing and leaves the cursor and the
    line counter as they are. *)
Theorem follower_reads_nothing_twice (now : Z -> Time) (fl : Follower)
    (data data' : list ascii) :
  (length data' <= length data)%nat ->
  exists fl1 sent fl2,
    poll now fl data = Some (fl1, sent) /\
    poll now fl1 data' = Some (fl2, []) /\
    offset fl2 = offset fl1 /\
    Stream_LineNumber (stream fl2) = Stream_LineNumber (stream fl1).
Proof.
  intros Hle.
  destruct (poll_spec now fl data) as (fl1 & Hpoll1 & _ & _ & Hoff1).
  destruct (poll_spec now fl1 data') as (fl2 & Hpoll2 & _ & Hnum2 & Hoff2).
  assert (Hquiet : (offset fl1 <? length data')%nat = false).
  { apply Nat.ltb_ge. rewrite Hoff1. unfold newOffset.
    destruct (Nat.ltb_spec (offset fl) (length data)); lia. }
  unfold newLines, newOffset in *. rewrite Hquiet in *.
  eexists fl1, _, fl2. repeat split; [exact Hpoll1 | exact Hpoll2 | exact Hoff2 | exact Hnum2].
Qed.

Lemma follower_reads_nothing_twice_witness :
  exists fl1 sent fl2,
    poll sample.clock (start (fresh sample.app "/logs/a.log") false [])
         (gostr.bytes "x" ++ sample.nl) = Some (fl1, sent) /\
    poll sample.clock fl1 [] = Some (fl2, []) /\
    offset fl2 = offset fl1 /\
    Stream_LineNumber (stream fl2) = Stream_LineNumber (stream fl1).
Proof.
  apply (follower_reads_nothing_twice sample.clock
           (start (fresh sample.app "/logs/a.log") false [])
           (gostr.bytes "x" ++ sample.nl) []).
  cbn. lia.
Defined.

(** X9. When the file grows by whole lines between the iterations, the
    contents of the entries are exactly the lines written, in order,
    without their newlines. In tail-only mode the lines are those
    written after the start; otherwise the file is read from its first
    byte, so the first group of lines is what the file held before. *)
Theorem whole_lines_are_emitted_as_written (now : Z -> Time) (s : Stream)
    (tailOnly : bool) (before : list ascii) (groups : list (list (list ascii))) :
  Forall (Forall (fun l => gostr.newline ∉ l)) groups ->
  let fl := start s tailOnly before in
  let base := if tailOnly then before else [] in
  map Content (emitted now fl (growth base (map terminated groups)))
    = map gostr.str (concat groups).
Proof.
  intros Hgroups fl base.
  rewrite emitted_spec.
  assert (Hoff : offset fl = length base) by (subst fl base; by destruct tailOnly).
  rewrite Hoff, linesRead_growth.
  assert (Hlines : concat (map completeLines (map terminated groups))
                   = map (fun l => l ++ [gostr.newline]) (concat groups)).
  { clear -Hgroups. induction Hgroups as [| g groups Hg _ IH]; [done |].
    cbn [map concat]. rewrite IH, completeLines_terminated, map_app by done. done. }
  rewrite Hlines. apply entriesFrom_Content.
Qed.

Lemma whole_lines_are_emitted_as_written_witness :
  let fl := start (fresh sample.app "/logs/a.log") false [] in
  map Content (emitted sample.clock fl
                 (growth [] (map terminated [[gostr.bytes "x"; gostr.bytes "y"];
                                             [gostr.bytes "z"]])))
    = map gostr.str (concat [[gostr.bytes "x"; gostr.bytes "y"]; [gostr.bytes "z"]]).
Proof.
  apply (whole_lines_are_emitted_as_written sample.clock (fresh sample.app "/logs/a.log")
           false [] [[gostr.bytes "x"; gostr.bytes "y"]; [gostr.bytes "z"]]).
  vm_compute.
  repeat constructor; intros H;
    repeat (apply elem_of_cons in H as [H | H]; [discriminate H |]);
    by apply elem_of_nil in H.
Defined.

End ReadingExtras.

(** ** Auto-discovery, continued *)

Module discovery_more.
Import config discovery_facts.

(** A kept file finds its own name among the streams synthesized. *)
Lemma synthesize_names (logDir : string) (kept : list string) (file : string) :
  forall colorIdx,
    In file kept ->
    existsb (fun s => String.eqb (Name s) (removeExtension (filepath.Base file)))
            (synthesize logDir colorIdx kept) = true.
Proof.
  induction kept as [| f kept IH]; intros colorIdx Hin; [done |].
  cbn [synthesize existsb Name].
  destruct Hin as [-> | Hin].
  - by rewrite String.eqb_refl.
  - rewrite (IH _ Hin). apply orb_true_r.
Qed.


(** The streams after [AutoDiscover], in the cases where it scans. *)
Lemma AutoDiscover_streams (os : OS) (cfg : Config) (exclude : gmap string bool) :
  Streams (fst (AutoDiscover os cfg exclude))
    = Streams cfg ++
      synthesize (discoveryDir os cfg) (length (Streams cfg))
        (List.filter (fun file => negb (skipped cfg exclude file)) (discoveredFiles os cfg)).
Proof.
  unfold AutoDiscover, discoveredFiles.
  destruct (IsNotExist os (discoveryDir os cfg)); [cbn; by rewrite app_nil_r |].
  destruct (Glob os (Join os [discoveryDir os cfg; "*.log"])) as [files |];
    [| cbn; by rewrite app_nil_r].
  by rewrite discover_loop.
Qed.

(** Only the streams change. *)
Lemma AutoDiscover_eta (os : OS) (cfg : Config) (exclude : gmap string bool) :
  fst (AutoDiscover os cfg exclude)
    = {| LogDir := LogDir cfg;
         Streams := Streams (fst (AutoDiscover os cfg exclude));
         Theme := Theme cfg; Filters := Filters cfg; Groups := Groups cfg |}.
Proof.
  unfold AutoDiscover.
  destruct (IsNotExist os (discoveryDir os cfg)); [by destruct cfg |].
  destruct (Glob os (Join os [discoveryDir os cfg; "*.log"])) as [files |]; [| by destruct cfg].
  by rewrite discover_loop.
Qed.


End discovery_more.

Section DiscoveryExtras.
Import config discovery_facts discovery_more.

(** X10. Auto-discovery is idempotent: running it again on its own result,
    on the same machine and with the same exclusion set, adds nothing. *)
Theorem AutoDiscover_twice (os : OS) (cfg : Config) (exclude : gmap string bool) :
  fst (AutoDiscover os (fst (AutoDiscover os cfg exclude)) exclude)
    = fst (AutoDiscover os cfg exclude).
Proof.
  set (cfg' := fst (AutoDiscover os cfg exclude)).
  assert (Hdir : discoveryDir os cfg' = discoveryDir os cfg).
  { subst cfg'. rewrite AutoDiscover_eta. reflexivity. }
  assert (Hfiles : discoveredFiles os cfg' = discoveredFiles os cfg).
  { unfold discoveredFiles. by rewrite Hdir. }
  rewrite (AutoDiscover_eta os cfg' exclude), AutoDiscover_streams, Hdir, Hfiles.
  assert (Hnone : List.filter (fun file => negb (skipped cfg' exclude file))
                              (discoveredFiles os cfg) = []).
  { assert (Hall : forall file, In file (discoveredFiles os cfg) ->
                                skipped cfg' exclude file = true).
    { intros file Hin. unfold skipped. subst cfg'.
      rewrite AutoDiscover_streams, existsb_app.
      destruct (skipped cfg exclude file) eqn:Hskip.
      - unfold skipped in Hskip. apply orb_true_iff in Hskip as [-> | ->]; [done |].
        cbn. apply orb_true_r.
      - rewrite (synthesize_names _ _ file); [by rewrite !orb_true_r |].
        apply filter_In. split; [done | by rewrite Hskip]. }
    clear Hfiles. induction (discoveredFiles os cfg) as [| f fs IH]; [done |].
    cbn [List.filter]. rewrite (Hall f) by (by left). cbn [negb].
    apply IH. intros file Hin. apply Hall. by right. }
  rewrite Hnone. cbn [synthesize]. rewrite app_nil_r.
  subst cfg'. rewrite (AutoDiscover_eta os cfg exclude). reflexivity.
Qed.



End DiscoveryExtras.

(** ** The tools, continued *)

Module tool_facts.
Import mcp buffer_facts string_facts.

(** Reading from the manager leaves the server as it is. *)
Lemma callManager_GetEntries (source : string) (limit : Z) (s : Server) :
  callManager (logtail.GetEntries source limit) s
    = (logtail.result (logtail.GetEntries source limit (manager s)), s).
Proof.
  unfold callManager. rewrite GetEntries_pure. by destruct s.
Qed.

(** [logAccess] appends the record and keeps the newest 1000. *)
Lemma logAccess_spec (agentID action source pattern : string) (n : Z) (now : Time)
    (s : Server) :
  accessLog (logAccess agentID action source pattern n now s)
    = history.newest 1000
        (accessLog s ++
           [{| AgentID := agentID; AgentName := ""; Action := action;
               Access_Source := source; Access_Pattern := pattern;
               Access_Timestamp := now; ResultCount := n |}]).
Proof.
  unfold logAccess, history.newest. cbn [accessLog].
  set (log := accessLog s ++ _).
  destruct (Nat.ltb_spec 1000 (length log)); [done |].
  replace (length log - 1000)%nat with 0%nat by lia. done.
Qed.

Section WithRegexp.
Context (E : regexp.Engine).

(** The loop of [toolGrep] over results that all match: it takes the
    first ones up to the limit. *)
Lemma grepLoop_spec (fullPattern : string) (re : regexp.Regexp E) (limit : Z)
    (results : list logtail.LogEntry) :
  regexp.Compile E fullPattern = inl re ->
  Forall (fun e => regexp.MatchString E re (logtail.Content e) = true) results ->
  forall (matched : list logtail.LogEntry) (count : Z),
    0 <= count ->
    count + Z.of_nat (length results) < 2 ^ 63 ->
    grepLoop E fullPattern limit results matched count
      = (matched ++ take (Z.to_nat (limit - count)) results,
         count + Z.of_nat (length (take (Z.to_nat (limit - count)) results))).
Proof.
  intros Hre Hall. induction Hall as [| e results He _ IH]; intros matched count H0 Hbound.
  - cbn. rewrite take_nil, app_nil_r. cbn. f_equal. lia.
  - cbn [grepLoop]. rewrite Hre, He.
    destruct (Z.leb_spec limit count) as [Hstop | Hgo].
    + replace (Z.to_nat (limit - count)) with 0%nat by lia.
      cbn. rewrite app_nil_r. f_equal. lia.
    + cbn [length] in Hbound.
      assert (Hincr : goint.incr count = count + 1).
      { unfold goint.incr, goint.wrap. rewrite Z.mod_small by lia. lia. }
      rewrite Hincr, IH by lia.
      replace (Z.to_nat (limit - count)) with (S (Z.to_nat (limit - (count + 1)))) by lia.
      cbn [take length]. rewrite <- app_assoc. cbn [app]. f_equal. lia.
Qed.

End WithRegexp.

End tool_facts.

Section ToolExtras.
Import mcp tool_facts group_facts buffer_facts string_facts requests.
Context (E : regexp.Engine).
Context (Format : string -> Time -> string).
Context (Now : nat -> Time).

(** X12. The search tool returns the first matches in arrival order, up
    to the limit of the request (100 when none is given), and their
    number; with a limit of zero or less it returns none, however many
    entries match. *)
Theorem toolGrep_returns_first_matches (params : gmap string Value) (s : Server)
    (re : regexp.Regexp E) :
  regexp.Compile E (fullPattern params) = inl re ->
  Z.of_nat (length (logtail.buffer (manager s))) < 2 ^ 63 ->
  let results :=
    List.filter
      (fun e => logtail.fromSource (searchSource params s) e &&
                regexp.MatchString E re (logtail.Content e))
      (logtail.buffer (manager s)) in
  let shown := take (Z.to_nat (limitArg params 100)) results in
  fst (toolGrep_entries E params s) = inl (shown, Z.of_nat (length shown)).
Proof.
  intros Hre Hbound results shown. subst shown.
  unfold toolGrep_entries.
  assert (Hpat : (if match params !! "case_insensitive" with
                     | Some (VBool ci) => ci
                     | _ => false
                     end then "(?i)" else "") +:+ stringArg params "pattern"
                 = fullPattern params).
  { unfold fullPattern. destruct (params !! "case_insensitive") as [[| | | []] |]; done. }
  rewrite Hpat. cbv [callManager].
  unfold logtail.Search. rewrite Hre. run_op.
  rewrite collect_filter. fold results. cbn [fst].
  rewrite (grepLoop_spec E (fullPattern params) re); try done; try lia.
  - cbn [app]. rewrite Z.sub_0_r. done.
  - subst results. apply Forall_forall. intros e He.
    apply list_elem_of_In, filter_In in He as [_ He].
    by apply andb_true_iff in He as [_ He].
  - pose proof (filter_length_le
                  (fun e => logtail.fromSource (searchSource params s) e &&
                            regexp.MatchString E re (logtail.Content e))
                  (logtail.buffer (manager s))).
    subst results. lia.
Qed.

(** X13. When the pattern of a search request does not compile, the search
    tool answers with error -32603 and the cause, and the server is left
    as it was: the failed call is not recorded in the access log. *)
Theorem toolGrep_invalid_pattern (params : gmap string Value) (id : Value)
    (agentID cause : string) (s : Server) :
  regexp.Compile E (fullPattern params) = inr cause ->
  toolGrep E Format Now params id agentID s
    = (errorResponse (-32603) ("invalid pattern: " +:+ cause) id, s).
Proof.
  intros Hre. unfold toolGrep, toolGrep_entries.
  assert (Hpat : (if match params !! "case_insensitive" with
                     | Some (VBool ci) => ci
                     | _ => false
                     end then "(?i)" else "") +:+ stringArg params "pattern"
                 = fullPattern params).
  { unfold fullPattern. destruct (params !! "case_insensitive") as [[| | | []] |]; done. }
  rewrite Hpat. cbv [callManager].
  unfold logtail.Search. rewrite Hre. run_op. by destruct s.
Qed.

(** X14. A group that does not exist, or whose pattern is empty, does not
    filter the read tool: the answer and the access record are those of
    the same request without the group, and no pattern is compiled. *)
Theorem toolRead_ignores_unusable_group (params : gmap string Value) (id : Value)
    (agentID : string) (s : Server) :
  (forall g, logGroups s !! stringArg params "group" = Some g -> Pattern g = "") ->
  toolRead E Format Now params id agentID s
    = toolRead E Format Now (delete "group" params) id agentID s.
Proof.
  intros Hgroup. unfold toolRead, toolRead_entries, stringArg, limitArg.
  rewrite lookup_delete_eq, !lookup_delete_ne by done.
  fold (stringArg params "source") (stringArg params "group") (limitArg params 100).
  rewrite callManager_GetEntries. cbn [String.eqb negb].
  destruct (negb (String.eqb (stringArg params "group") "")); [| done].
  destruct (logGroups s !! stringArg params "group") as [g |] eqn:Hg; [| done].
  rewrite (Hgroup g eq_refl). done.
Qed.

(** X15. Reading a resource never changes the server: whatever the
    request, when the handler returns, the buffer, the groups and the
    access log are as before (resource reads are not recorded). *)
Theorem handleResourcesRead_changes_nothing (params : option (gmap string Value))
    (id : Value) (s : Server) :
  match handleResourcesRead E Format params id s with
  | Returned (_, s') => s' = s
  | Panicked => True
  end.
Proof.
  unfold handleResourcesRead.
  destruct (decodeURI params) as [uri |]; [| done].
  destruct (gostr.HasPrefix uri "logdump://stream/").
  - by rewrite callManager_GetEntries.
  - destruct (gostr.HasPrefix uri "logdump://group/"); [| done].
    unfold groupResource_entries.
    destruct (logGroups s !! _) as [g |]; [| done].
    destruct (regexp.MustCompile E _); [| done].
    by rewrite callManager_GetEntries.
Qed.


End ToolExtras.

Lemma toolGrep_returns_first_matches_witness :
  let params : gmap string mcp.Value :=
    {[ "pattern" := mcp.VString "ERR"; "limit" := mcp.VNumber 1 ]} in
  let s :=
    {| mcp.manager :=
         history.appendAll
           [sample.entry "app" "INFO x" 1; sample.entry "app" "ERRab" 2;
            sample.entry "app" "y ERROR" 3] logtail.NewManager;
       mcp.config := sample.noConfig; mcp.accessLog := []; mcp.logGroups := ∅;
       mcp.currentAgent := "" |} in
  let results :=
    List.filter
      (fun e => logtail.fromSource (mcp.searchSource params s) e &&
                regexp.MatchString refregexp.engine sample.ERR (logtail.Content e))
      (logtail.buffer (mcp.manager s)) in
  let shown := take (Z.to_nat (mcp.limitArg params 100)) results in
  fst (mcp.toolGrep_entries refregexp.engine params s) = inl (shown, Z.of_nat (length shown)).
Proof.
  apply (toolGrep_returns_first_matches refregexp.engine
           {[ "pattern" := mcp.VString "ERR"; "limit" := mcp.VNumber 1 ]} _ sample.ERR).
  - vm_compute. reflexivity.
  - vm_compute. reflexivity.
Defined.

Lemma toolGrep_invalid_pattern_witness :
  mcp.toolGrep refregexp.engine sample.format sample.now
    {[ "pattern" := mcp.VString "(" ]} mcp.VNull "agent" sample.server
  = (mcp.errorResponse (-32603)
       ("invalid pattern: " +:+ "error parsing regexp: missing closing ): `(`") mcp.VNull,
     sample.server).
Proof.
  apply (toolGrep_invalid_pattern refregexp.engine sample.format sample.now
           {[ "pattern" := mcp.VString "(" ]} mcp.VNull "agent"
           "error parsing regexp: missing closing ): `(`" sample.server).
  vm_compute. reflexivity.
Defined.

Lemma toolRead_ignores_unusable_group_witness :
  mcp.toolRead refregexp.engine sample.format sample.now
    {[ "group" := mcp.VString "nope" ]} mcp.VNull "agent" sample.server
  = mcp.toolRead refregexp.engine sample.format sample.now
      (delete "group" ({[ "group" := mcp.VString "nope" ]} : gmap string mcp.Value))
      mcp.VNull "agent" sample.server.
Proof.
  apply (toolRead_ignores_unusable_group refregexp.engine sample.format sample.now
           {[ "group" := mcp.VString "nope" ]} mcp.VNull "agent" sample.server).
  intros g Hg. vm_compute in Hg. discriminate Hg.
Defined.


(** ** The dispatch of tool calls, the access log and the resources *)

Module dispatch_facts.
Import mcp tool_facts buffer_facts requests history.

Lemma callManager_GetStreams (s : Server) :
  callManager logtail.GetStreams s = (logtail.streams (manager s), s).
Proof. destruct s as [[] ? ? ? ?]. reflexivity. Qed.

Lemma callManager_GetBuffer (s : Server) :
  callManager logtail.GetBuffer s = (logtail.buffer (manager s), s).
Proof. destruct s as [[] ? ? ? ?]. reflexivity. Qed.

Lemma last_newest_snoc {A} (l : list A) (x : A) :
  last (newest 1000 (l ++ [x])) = Some x.
Proof.
  unfold newest. rewrite length_app, drop_app_le by (cbn; lia).
  apply last_snoc.
Qed.

Section WithRegexp.
Context (E : regexp.Engine).
Context (Format : string -> Time -> string).
Context (Now : nat -> Time).

Lemma toolRead_returns (params : gmap string Value) (id : Value) (agentID : string)
    (s s' : Server) (resp : MCPResponse) :
  toolRead E Format Now params id agentID s = Returned (resp, s') ->
  frame s' = frame s /\
  logGroups s' = logGroups s /\
  exists count,
    accessLog s'
      = newest 1000
          (accessLog s ++ [access agentID "read" (stringArg params "source") "" count (Now 0)]).
Proof.
  unfold toolRead, toolRead_entries. rewrite callManager_GetEntries.
  assert (Hdone : forall entries,
            Returned
              (textResponse
                 (if (length entries =? 0)%nat then "No log entries found"
                  else gostr.Join (map (toolLine Format) entries) (String gostr.newline ""))
                 id,
               logAccess agentID "read" (stringArg params "source") ""
                         (Z.of_nat (length entries)) (Now 0) s)
            = Returned (resp, s') ->
            frame s' = frame s /\ logGroups s' = logGroups s /\
            exists count,
              accessLog s'
                = newest 1000
                    (accessLog s ++
                       [access agentID "read" (stringArg params "source") "" count (Now 0)])).
  { intros entries [= _ <-]. repeat split. eexists. apply logAccess_spec. }
  destruct (negb (String.eqb (stringArg params "group") "")); [| apply Hdone].
  destruct (logGroups s !! stringArg params "group") as [g |]; [| apply Hdone].
  destruct (negb (String.eqb (Pattern g) "")); [| apply Hdone].
  destruct (regexp.MustCompile E ("(?i)" +:+ Pattern g)); [apply Hdone | done].
Qed.

Lemma toolGrep_frame (params : gmap string Value) (id : Value) (agentID : string)
    (s : Server) :
  frame (snd (toolGrep E Format Now params id agentID s)) = frame s /\
  logGroups (snd (toolGrep E Format Now params id agentID s)) = logGroups s.
Proof.
  unfold toolGrep, toolGrep_entries. cbv [callManager].
  unfold logtail.Search.
  destruct (regexp.Compile E _) as [re | cause]; run_op.
  - destruct (grepLoop _ _ _ _ _ _) as [matched count]. cbn.
    rewrite GetEntries_pure || idtac. by destruct s as [[] ? ? ? ?].
  - by destruct s as [[] ? ? ? ?].
Qed.

End WithRegexp.

Section NewServer.
Context (Now : nat -> Time).

Lemma addGroups_lookup (gs : list config.GroupConfig) (name : string) :
  forall (i : nat) (groups : gmap string LogGroup),
    stored <$> (addGroups Now i gs groups !! name)
      = match last (List.filter (fun g => String.eqb (config.Group_Name g) name) gs) with
        | Some g => Some (configured g)
        | None => stored <$> (groups !! name)
        end.
Proof.
  induction gs as [| g gs IH]; intros i groups; [done |].
  cbn [addGroups List.filter]. rewrite IH.
  destruct (String.eqb_spec (config.Group_Name g) name) as [<- | Hne].
  - rewrite last_cons. destruct (last (List.filter _ gs)); [done |].
    by rewrite lookup_insert_eq.
  - destruct (last _); [done |]. by rewrite lookup_insert_ne.
Qed.

End NewServer.

End dispatch_facts.

Section DispatchExtras.
Import mcp tool_facts dispatch_facts buffer_facts string_facts requests history.
Context (E : regexp.Engine).
Context (Format : string -> Time -> string).
Context (Now : nat -> Time).
Context (ToLower : string -> string).
Context (Range : forall A, gmap string A -> list (string * A)).
Context (Marshal : gmap string Value -> string).
Context (Quote : string -> string).
Context (logOpen : bool).

(** X17. A new server knows the groups of the configuration by name: a
    name is bound to the last group of the configuration that carries
    it, with its pattern, color and streams, and to nothing when no
    group carries it. *)
Theorem NewServer_groups_by_name (m : logtail.Manager) (cfg : config.Config)
    (name : string) :
  stored <$> (logGroups (fst (NewServer Format Now logOpen m cfg)) !! name)
    = configured <$>
        last (List.filter (fun g => String.eqb (config.Group_Name g) name)
                          (config.Groups cfg)).
Proof.
  cbn [NewServer fst logGroups]. rewrite addGroups_lookup.
  destruct (last _); [done |]. by rewrite lookup_empty.
Qed.

Lemma logAll_accessLog (calls : list AgentAccess) :
  forall s : Server,
    (length (accessLog s) <= 1000)%nat ->
    accessLog (logAll calls s)
      = newest 1000
          (accessLog s ++
             map (fun a => access (AgentID a) (Action a) (Access_Source a)
                                  (Access_Pattern a) (ResultCount a) (Access_Timestamp a))
                 calls).
Proof.
  induction calls as [| a calls IH]; intros s Hs.
  - cbn. rewrite app_nil_r. unfold newest.
    replace (length (accessLog s) - 1000)%nat with 0%nat by lia. done.
  - cbn [logAll fold_left map].
    fold (logAll calls (logAccess (AgentID a) (Action a) (Access_Source a)
                                  (Access_Pattern a) (ResultCount a)
                                  (Access_Timestamp a) s)).
    rewrite IH.
    + rewrite logAccess_spec, newest_app_newest, <- app_assoc. done.
    + rewrite logAccess_spec, newest_length. lia.
Qed.

(** X18. The access log of a server holds the newest 1000 accesses logged
    since it was created, oldest first, each as it was logged except that
    the name of the agent is never filled in. *)
Theorem accessLog_keeps_newest (m : logtail.Manager) (cfg : config.Config)
    (calls : list AgentAccess) :
  let s := logAll calls (fst (NewServer Format Now logOpen m cfg)) in
  (length (accessLog s) <= 1000)%nat /\
  accessLog s
    = newest 1000
        (map (fun a => access (AgentID a) (Action a) (Access_Source a)
                              (Access_Pattern a) (ResultCount a) (Access_Timestamp a))
             calls).
Proof.
  cbv zeta. rewrite logAll_accessLog by (cbn; lia).
  cbn [NewServer fst accessLog app]. split; [| done].
  rewrite newest_length. lia.
Qed.

(** X19. The access-log tool shows, oldest first, the newest [limit]
    records (50 when the request gives no limit, all of them when the
    limit is zero or less) among those of the agent asked for: a record
    is of that agent when its agent is the name asked for or contains it
    without regard to case; a request that names no agent sees every
    record. *)
Theorem toolAccessLog_shows_newest (params : gmap string Value) (s : Server) :
  let matching :=
    if String.eqb (stringArg params "agent") "" then accessLog s
    else List.filter (agentMatches ToLower (stringArg params "agent")) (accessLog s) in
  toolAccessLog_entries ToLower params s
    = (if 0 <? limitArg params 50
       then newest (Z.to_nat (limitArg params 50)) matching
       else matching) /\
  toolAccessLog_entries ToLower params s `sublist_of` accessLog s.
Proof.
  cbv zeta. unfold toolAccessLog_entries.
  assert (Hfold : fold_left
                    (fun acc a =>
                       if agentMatches ToLower (stringArg params "agent") a
                       then acc ++ [a] else acc) (accessLog s) []
                  = List.filter (agentMatches ToLower (stringArg params "agent"))
                                (accessLog s)).
  { enough (H : forall acc,
               fold_left
                 (fun acc a =>
                    if agentMatches ToLower (stringArg params "agent") a
                    then acc ++ [a] else acc) (accessLog s) acc
               = acc ++ List.filter (agentMatches ToLower (stringArg params "agent"))
                                   (accessLog s)) by apply (H []).
    induction (accessLog s) as [| a l IH]; intros acc; cbn.
    - by rewrite app_nil_r.
    - rewrite IH. destruct (agentMatches _ _ a); [by rewrite <- app_assoc | done]. }
  rewrite Hfold.
  set (matching := if String.eqb (stringArg params "agent") "" then accessLog s
                   else List.filter _ (accessLog s)).
  replace (if negb (String.eqb (stringArg params "agent") "")
           then List.filter (agentMatches ToLower (stringArg params "agent")) (accessLog s)
           else accessLog s) with matching
    by (subst matching; by destruct (String.eqb (stringArg params "agent") "")).
  assert (Hsub : matching `sublist_of` accessLog s).
  { subst matching. destruct (String.eqb _ _); [done | apply filter_sublist]. }
  destruct (Z.ltb_spec 0 (limitArg params 50)) as [Hpos | Hneg]; cbn [andb].
  - unfold newest.
    destruct (Z.ltb_spec (limitArg params 50) (Z.of_nat (length matching))) as [Hlt | Hge].
    + split; [f_equal; lia |]. etrans; [apply sublist_drop | exact Hsub].
    + replace (length matching - Z.to_nat (limitArg params 50))%nat with 0%nat by lia.
      done.
  - done.
Qed.

(** X20. Once an agent has introduced itself with a name and an
    identifier, the read tool records its accesses under
    [name (identifier)]. *)
Theorem set_agent_names_the_accesses (agentID agentName : string)
    (args : gmap string Value) (id : Value) (s : Server) :
  let s1 := snd (handleSetAgent (Some (agentID, agentName)) s) in
  match handleToolCall E Format Now ToLower Range Marshal Quote logOpen
          "logdump_read" args id s1 with
  | Returned (_, s2, _) =>
      exists count,
        last (accessLog s2)
          = Some (access (agentName +:+ " (" +:+ agentID +:+ ")") "read"
                         (stringArg args "source") "" count (Now 0))
  | Panicked => True
  end.
Proof.
  cbv zeta. unfold handleSetAgent. cbn [snd].
  unfold handleToolCall, agentOf. cbn [currentAgent String.eqb Ascii.eqb Bool.eqb andb].
  assert (Hname : String.eqb (agentName +:+ " (" +:+ agentID +:+ ")") "" = false).
  { apply String.eqb_neq. destruct agentName; discriminate. }
  rewrite Hname.
  destruct (toolRead _ _ _ _ _ _ _) as [[resp s2] |] eqn:Hread; [| done].
  apply toolRead_returns in Hread as (_ & _ & count & Hlog).
  exists count. rewrite Hlog. apply last_newest_snoc.
Qed.


(** X22. No tool call changes the manager (its buffer and its streams),
    the configuration or the agent of the server, and only the tool that
    creates a group changes the groups. *)
Theorem tool_calls_keep_the_manager (toolName : string) (args : gmap string Value)
    (id : Value) (s : Server) :
  match handleToolCall E Format Now ToLower Range Marshal Quote logOpen toolName args id s with
  | Returned (_, s', _) =>
      frame s' = frame s /\
      (if String.eqb toolName "logdump_create_group" then True
       else logGroups s' = logGroups s)
  | Panicked => True
  end.
Proof.
  unfold handleToolCall.
  destruct (String.eqb_spec toolName "logdump_read") as [-> | _].
  { destruct (toolRead _ _ _ _ _ _ _) as [[resp s'] |] eqn:Hread; [| done].
    apply toolRead_returns in Hread as (Hframe & Hgroups & _). done. }
  destruct (String.eqb_spec toolName "logdump_grep") as [-> | _].
  { pose proof (toolGrep_frame E Format Now args id (agentOf s) s) as [Hframe Hgroups].
    destruct (toolGrep _ _ _ _ _ _ _) as [resp s']. done. }
  destruct (String.eqb_spec toolName "logdump_streams") as [-> | _].
  { unfold toolStreams. rewrite callManager_GetStreams. done. }
  destruct (String.eqb_spec toolName "logdump_groups") as [-> | _]; [done |].
  destruct (String.eqb_spec toolName "logdump_create_group") as [-> | _]; [done |].
  destruct (String.eqb_spec toolName "logdump_stats") as [-> | _].
  { unfold toolStats. rewrite callManager_GetStreams, callManager_GetBuffer. done. }
  destruct (String.eqb_spec toolName "logdump_access_log") as [-> | _]; done.
Qed.

(** X23. The URI that the list of resources gives for a stream lower-cases
    its name, and reading a stream URI compares the name as it is: for a
    configured stream whose name changes when lower-cased, the listed
    URI reads back without error but holds no entry of that stream. *)
Theorem listed_stream_uri_reads_lowercased_name (stream : config.StreamConfig)
    (id : Value) (s : Server) :
  In stream (config.Streams (config s)) ->
  ToLower (config.Name stream) <> config.Name stream ->
  ToLower (config.Name stream) <> "" ->
  let u := "logdump://stream/" +:+ ToLower (config.Name stream) in
  In u (map uri (handleResourcesList_resources ToLower Range s)) /\
  exists entries,
    handleResourcesRead E Format (Some {[ "uri" := VString u ]}) id s
      = Returned
          ({| Result := Some (ResourceContents u "text/plain"
                                (gostr.Join (map (resourceLine Format) entries)
                                            (String gostr.newline "")));
              Error := None; ID := id |}, s) /\
    Forall (fun e => logtail.Source e <> config.Name stream) entries.
Proof.
  intros Hin Hchanged Hnonempty u. split.
  - unfold handleResourcesList_resources. rewrite map_app. apply in_or_app. right.
    rewrite map_map. cbn [uri]. apply in_map_iff. exists stream. done.
  - exists (logtail.result
              (logtail.GetEntries (ToLower (config.Name stream)) 100 (manager s))).
    split.
    + unfold handleResourcesRead, decodeURI. rewrite lookup_singleton_eq.
      subst u. rewrite HasPrefix_append, TrimPrefix_append, callManager_GetEntries. done.
    + rewrite GetEntries_result. cbv zeta. cbn [Z.ltb Z.compare].
      apply Forall_drop, Forall_forall. intros e He.
      apply list_elem_of_In, filter_In in He as [_ He].
      unfold logtail.fromSource in He. apply orb_true_iff in He as [He | He].
      * apply String.eqb_eq in He. done.
      * apply String.eqb_eq in He. congruence.
Qed.

End DispatchExtras.


Lemma listed_stream_uri_reads_lowercased_name_witness :
  let stream :=
    {| config.Name := "App"; config.Path := "/logs"; config.Patterns := ["*.log"];
       config.Tags := []; config.Color := "cyan" |} in
  let s := fst (mcp.NewServer sample.format sample.now true sample.mixed sample.appConfig) in
  let u := "logdump://stream/" +:+ sample.lower (config.Name stream) in
  In u (map mcp.uri (mcp.handleResourcesList_resources sample.lower sample.range s)) /\
  exists entries,
    mcp.handleResourcesRead refregexp.engine sample.format
      (Some {[ "uri" := mcp.VString u ]}) mcp.VNull s
      = mcp.Returned
          ({| mcp.Result :=
                Some (mcp.ResourceContents u "text/plain"
                        (gostr.Join (map (mcp.resourceLine sample.format) entries)
                                    (String gostr.newline "")));
              mcp.Error := None; mcp.ID := mcp.VNull |}, s) /\
    Forall (fun e => logtail.Source e <> config.Name stream) entries.
Proof.
  apply (listed_stream_uri_reads_lowercased_name refregexp.engine sample.format
           sample.lower sample.range
           {| config.Name := "App"; config.Path := "/logs"; config.Patterns := ["*.log"];
              config.Tags := []; config.Color := "cyan" |}
           mcp.VNull
           (fst (mcp.NewServer sample.format sample.now true sample.mixed sample.appConfig))).
  - left. reflexivity.
  - vm_compute. discriminate.
  - vm_compute. discriminate.
Defined.

(** ** The streams of a group, as a request writes them *)

Module streams_facts.
Import mcp string_facts.




End streams_facts.

Section StreamsExtras.
Import mcp streams_facts string_facts.



End StreamsExtras.
